(** * mcp-wrapper.py: line classifier, stream forwarder and process supervisor

    A shallow embedding of [src/mcp-wrapper.py] and the properties of its
    three functions [filter_logs], [forward_stream] and [main].

    Conventions of the embedding:
    - a Python [str] is the list of its Unicode code points ([list N]);
    - a Python [bytes] object is a [list byte];
    - a call that can raise is a computation in the [outcome] monad;
    - [os.environ] and the environment handed to the child are
      [gmap string string];
    - the standard-library functions the script calls ([json.loads],
      [bytes.decode], [str.strip], [str.startswith], [readline], [Popen],
      [sys.exit]) are not part of the repository.  [filter_logs] and
      [forward_stream] take [json.loads] and [bytes.decode] as parameters, so
      that what is proved of them holds whatever these two do.  The file also
      gives a model of each, written after CPython: the examples are
      evaluated on them, and the one property that depends on what
      [json.loads] accepts (a blank line is not JSON) is proved of the model;
    - the two forwarders run in threads of their own; [main] is modelled by
      the calls it makes, in order, and by the way it ends.  The interleaving
      of the threads is not modelled; where each thread stands when the
      interpreter shuts down is given with the surroundings of the script. *)

From Stdlib Require Import ZArith NArith Lia Strings.Ascii Strings.Byte.
From stdpp Require Import gmap strings list.
From Equations Require Import Equations.

(* ===================================================================== *)
(** * Python values and exceptions *)
(* ===================================================================== *)

(** A [str] is a sequence of code points, a [bytes] a sequence of bytes. *)
Definition str := list N.
Definition bytes := list byte.

(** Code point of an ASCII character, and the [str] of an ASCII literal. *)
Definition ord (c : ascii) : N := N_of_ascii c.
Definition u (s : string) : str := map ord (String.list_ascii_of_string s).

(** The [bytes] literal [b'...'] of an ASCII string. *)
Definition b (s : string) : bytes := String.list_byte_of_string s.

(** The exceptions that occur in the script and in the library calls it makes.
    [SystemExit] carries the integer handed to [sys.exit]. *)
Inductive exn : Type :=
| JSONDecodeError
| RecursionError
| ValueError
| TypeError
| MemoryError
| KeyboardInterrupt
| FileNotFoundError
| PermissionError
| OSError
| StopIteration
| SystemExit (code : Z).

(** Result of evaluating a Python expression or statement. *)
Inductive outcome (A : Type) : Type :=
| Returned (a : A)
| Raised (e : exn).
Arguments Returned {A} a.
Arguments Raised {A} e.

(** [outcome] is a monad: sequencing stops at the first exception.  The
    notations [x ← c; k] and [c;; k] are stdpp's. *)
#[global] Instance outcome_ret : MRet outcome := λ A a, Returned a.
#[global] Instance outcome_bind : MBind outcome := λ A B k c,
  match c with
  | Returned a => k a
  | Raised e => Raised e
  end.

(** Equality of exceptions and of results is decidable. *)
#[global] Instance exn_eq_dec : EqDecision exn.
Proof. solve_decision. Defined.

#[global] Instance outcome_eq_dec {A} `{EqDecision A} : EqDecision (outcome A).
Proof. solve_decision. Defined.

(** [try: body / except: handler] with a bare [except], which catches every
    exception whatever its class. *)
Definition try_except {A} (body handler : outcome A) : outcome A :=
  match body with
  | Returned a => Returned a
  | Raised _ => handler
  end.

(* ===================================================================== *)
(** * The [str] methods used by the classifier *)
(* ===================================================================== *)

(** [str.isspace] on one character: the code points CPython's
    [_PyUnicode_IsWhitespace] accepts (bidirectional class WS, B or S, or
    category Zs). *)
Definition isspace (c : N) : bool :=
  ((9 <=? c) && (c <=? 13) || (28 <=? c) && (c <=? 32)
   || (c =? 133) || (c =? 160) || (c =? 5760)
   || (8192 <=? c) && (c <=? 8202)
   || (c =? 8232) || (c =? 8233) || (c =? 8239) || (c =? 8287)
   || (c =? 12288))%N.

Fixpoint lstrip (s : str) : str :=
  match s with
  | c :: s' => if isspace c then lstrip s' else s
  | [] => []
  end.

Definition rstrip (s : str) : str := reverse (lstrip (reverse s)).

(** [s.strip()]: leading and trailing whitespace removed. *)
Definition strip (s : str) : str := rstrip (lstrip s).

(** Truth value of a sequence: non-empty. *)
Definition truthy {A} (l : list A) : bool :=
  match l with [] => false | _ => true end.

(** [s.startswith(prefix)]. *)
Fixpoint startswith (s prefix : str) {struct prefix} : bool :=
  match prefix, s with
  | [], _ => true
  | p :: prefix', c :: s' => (c =? p)%N && startswith s' prefix'
  | _ :: _, [] => false
  end.

(** [any(f(x) for x in l)]. *)
Definition any {A} (f : A → bool) (l : list A) : bool := existsb f l.

(* ===================================================================== *)
(** * JSON values *)
(* ===================================================================== *)

(** What [json.loads] returns.  Numbers and strings keep their lexeme: the
    classifier throws the value away, only success or failure is observed. *)
#[warnings="-register-all"]
Inductive json : Type :=
| JNull
| JBool (v : bool)
| JNaN
| JInfinity (negative : bool)
| JNumber (lexeme : str) (is_float : bool)
| JString (lexeme : str)
| JArray (items : list json)
| JObject (pairs : list (str * json)).

(* ===================================================================== *)
(** * A model of CPython's JSON decoder *)
(* ===================================================================== *)

(** [json.loads] with its default arguments, after [Lib/json/__init__.py],
    [Lib/json/decoder.py] and the scanner of [Modules/_json.c]: a recursive
    descent over the text that accepts RFC 8259 JSON and the constants [NaN],
    [Infinity] and [-Infinity].  The functions take the text that remains to
    be read and return the value with the text after it. *)
Module Json.

(** Limits of the interpreter that make the decoder fail on a well-formed
    document: the number of containers that may still be nested when the
    decoder is entered, and [sys.get_int_max_str_digits()] (0: no limit). *)
Record limits : Type := {
  recursion_limit : nat;
  int_max_str_digits : nat;
}.

(** The whitespace of [WHITESPACE = re.compile(r'[ \t\n\r]*')]. *)
Definition is_whitespace (c : N) : bool :=
  ((c =? 32) || (c =? 9) || (c =? 10) || (c =? 13))%N.

Fixpoint skip_whitespace (s : str) : str :=
  match s with
  | c :: s' => if is_whitespace c then skip_whitespace s' else s
  | [] => []
  end.

Definition isdigit (c : N) : bool := ((48 <=? c) && (c <=? 57))%N.

Definition ishex (c : N) : bool :=
  (isdigit c || (97 <=? c) && (c <=? 102) || (65 <=? c) && (c <=? 70))%N.

(** The characters that may follow a backslash, [u] apart: the double quote,
    the backslash, the slash and the letters [b], [f], [n], [r], [t]. *)
Definition is_escape (c : N) : bool :=
  ((c =? 34) || (c =? 92) || (c =? 47) || (c =? 98) || (c =? 102)
   || (c =? 110) || (c =? 114) || (c =? 116))%N.

(** The longest prefix of characters satisfying [p], and the rest. *)
Fixpoint span (p : N → bool) (s : str) : str * str :=
  match s with
  | c :: s' =>
      if p c then let '(taken, rest) := span p s' in (c :: taken, rest)
      else ([], s)
  | [] => ([], [])
  end.

(** [scanstring] in strict mode, entered after the opening quote: the text up
    to the closing quote, escapes left as written.  A control character, an
    unknown escape, a [\u] without four hexadecimal digits and a missing
    closing quote are errors. *)
Fixpoint scanstring (s : str) : outcome (str * str) :=
  match s with
  | [] => Raised JSONDecodeError
  | c :: s1 =>
      if (c =? 34)%N then Returned ([], s1)
      else if (c =? 92)%N then
        match s1 with
        | [] => Raised JSONDecodeError
        | e :: s2 =>
            if (e =? 117)%N then
              match s2 with
              | h1 :: h2 :: h3 :: h4 :: s3 =>
                  if ishex h1 && ishex h2 && ishex h3 && ishex h4 then
                    '(body, rest) ← scanstring s3;
                    Returned (c :: e :: h1 :: h2 :: h3 :: h4 :: body, rest)
                  else Raised JSONDecodeError
              | _ => Raised JSONDecodeError
              end
            else if is_escape e then
              '(body, rest) ← scanstring s2;
              Returned (c :: e :: body, rest)
            else Raised JSONDecodeError
        end
      else if (c <=? 31)%N then Raised JSONDecodeError
      else
        '(body, rest) ← scanstring s1;
        Returned (c :: body, rest)
  end.

(** The fraction [\.\d+] and the exponent [[eE][-+]?\d+] of a number, each
    taken only when complete. *)
Definition match_fraction (s : str) : str * str :=
  match s with
  | dot :: d :: s' =>
      if (dot =? 46)%N && isdigit d then
        let '(ds, rest) := span isdigit s' in (dot :: d :: ds, rest)
      else ([], s)
  | _ => ([], s)
  end.

Definition match_exponent (s : str) : str * str :=
  match s with
  | e :: s1 =>
      if ((e =? 101) || (e =? 69))%N then
        let '(sign, s2) :=
          match s1 with
          | c :: s2 => if ((c =? 43) || (c =? 45))%N then ([c], s2) else ([], s1)
          | [] => ([], s1)
          end in
        let '(ds, rest) := span isdigit s2 in
        if truthy ds then (e :: sign ++ ds, rest) else ([], s)
      else ([], s)
  | [] => ([], s)
  end.

(** What follows the integer part [intpart] of a number.  An integer with
    more digits than [int_max_str_digits] makes [int] raise [ValueError]. *)
Definition number_tail (lim : limits) (sign intpart s : str)
    : outcome (json * str) :=
  let '(frac, s1) := match_fraction s in
  let '(exp, s2) := match_exponent s1 in
  let is_float := truthy frac || truthy exp in
  if negb is_float
     && negb (int_max_str_digits lim =? 0)
     && (int_max_str_digits lim <? length intpart)
  then Raised ValueError
  else Returned (JNumber (sign ++ intpart ++ frac ++ exp) is_float, s2).

(** [_match_number]: an optional minus sign, then [0] or a non-zero digit
    followed by digits, and the tail; [StopIteration] when no number starts
    here. *)
Definition match_number (lim : limits) (s : str) : outcome (json * str) :=
  let '(sign, s1) :=
    match s with
    | c :: s1 => if (c =? 45)%N then ([c], s1) else ([], s)
    | [] => ([], s)
    end in
  match s1 with
  | c :: s2 =>
      if ((49 <=? c) && (c <=? 57))%N then
        let '(ds, rest) := span isdigit s2 in
        number_tail lim sign (c :: ds) rest
      else if (c =? 48)%N then number_tail lim sign [c] s2
      else Raised StopIteration
  | [] => Raised StopIteration
  end.

(** The loop of [_parse_array], entered at the first item.  Every turn reads
    an item of at least one character, so [fuel] turns suffice when [fuel]
    exceeds the length of [s]; the fuel never runs out
    (see [loads_fuel_suffices]). *)
Fixpoint parse_array_items (scan : str → outcome (json * str))
    (fuel : nat) (s : str) : outcome (list json * str) :=
  match fuel with
  | O => Raised MemoryError
  | S fuel' =>
      '(val, s1) ← scan s;
      match skip_whitespace s1 with
      | c :: s2 =>
          if (c =? 93)%N then Returned ([val], s2)
          else if (c =? 44)%N then
            '(vals, rest) ← parse_array_items scan fuel' (skip_whitespace s2);
            Returned (val :: vals, rest)
          else Raised JSONDecodeError
      | [] => Raised JSONDecodeError
      end
  end.

(** [_parse_array], entered after the opening bracket. *)
Definition parse_array (scan : str → outcome (json * str)) (s : str)
    : outcome (json * str) :=
  let items :=
    '(vals, rest) ← parse_array_items scan (S (length s)) (skip_whitespace s);
    Returned (JArray vals, rest) in
  match skip_whitespace s with
  | c :: s1 => if (c =? 93)%N then Returned (JArray [], s1) else items
  | [] => items
  end.

(** The loop of [_parse_object], entered at the first key. *)
Fixpoint parse_object_items (scan : str → outcome (json * str))
    (fuel : nat) (s : str) : outcome (list (str * json) * str) :=
  match fuel with
  | O => Raised MemoryError
  | S fuel' =>
      match s with
      | q :: s1 =>
          if (q =? 34)%N then
            '(key, s2) ← scanstring s1;
            match skip_whitespace s2 with
            | colon :: s3 =>
                if (colon =? 58)%N then
                  '(val, s4) ← scan (skip_whitespace s3);
                  match skip_whitespace s4 with
                  | c :: s5 =>
                      if (c =? 125)%N then Returned ([(key, val)], s5)
                      else if (c =? 44)%N then
                        '(pairs, rest) ←
                          parse_object_items scan fuel' (skip_whitespace s5);
                        Returned ((key, val) :: pairs, rest)
                      else Raised JSONDecodeError
                  | [] => Raised JSONDecodeError
                  end
                else Raised JSONDecodeError
            | [] => Raised JSONDecodeError
            end
          else Raised JSONDecodeError
      | [] => Raised JSONDecodeError
      end
  end.

(** [_parse_object], entered after the opening brace. *)
Definition parse_object (scan : str → outcome (json * str)) (s : str)
    : outcome (json * str) :=
  let items :=
    '(pairs, rest) ← parse_object_items scan (S (length s)) (skip_whitespace s);
    Returned (JObject pairs, rest) in
  match skip_whitespace s with
  | c :: s1 => if (c =? 125)%N then Returned (JObject [], s1) else items
  | [] => items
  end.

(** The values that are not strings or containers: the constants [null],
    [true], [false], [NaN], [Infinity] and [-Infinity], then the numbers. *)
Definition scan_constant (lim : limits) (s : str) : outcome (json * str) :=
  if startswith s (u "null") then Returned (JNull, drop 4 s)
  else if startswith s (u "true") then Returned (JBool true, drop 4 s)
  else if startswith s (u "false") then Returned (JBool false, drop 5 s)
  else if startswith s (u "NaN") then Returned (JNaN, drop 3 s)
  else if startswith s (u "Infinity") then Returned (JInfinity false, drop 8 s)
  else if startswith s (u "-Infinity") then Returned (JInfinity true, drop 9 s)
  else match_number lim s.

(** [scan_once]: dispatch on the first character.  Entering a container
    counts against the recursion limit. *)
Fixpoint scan_once (lim : limits) (depth : nat) (s : str)
    : outcome (json * str) :=
  match s with
  | [] => Raised StopIteration
  | c :: s1 =>
      if (c =? 34)%N then
        '(lexeme, rest) ← scanstring s1;
        Returned (JString lexeme, rest)
      else if (c =? 123)%N then
        match depth with
        | O => Raised RecursionError
        | S depth' => parse_object (scan_once lim depth') s1
        end
      else if (c =? 91)%N then
        match depth with
        | O => Raised RecursionError
        | S depth' => parse_array (scan_once lim depth') s1
        end
      else scan_constant lim s
  end.

(** [JSONDecoder.raw_decode]: a [StopIteration] of the scanner becomes the
    [JSONDecodeError] "Expecting value". *)
Definition raw_decode (lim : limits) (s : str) : outcome (json * str) :=
  match scan_once lim (recursion_limit lim) s with
  | Raised StopIteration => Raised JSONDecodeError
  | r => r
  end.

(** [JSONDecoder.decode]: one value between optional whitespace, and nothing
    after it. *)
Definition decode (lim : limits) (s : str) : outcome json :=
  '(obj, rest) ← raw_decode lim (skip_whitespace s);
  match skip_whitespace rest with
  | [] => Returned obj
  | _ :: _ => Raised JSONDecodeError
  end.

(** [json.loads(s)] for a [str]: a leading byte-order mark is refused. *)
Definition loads (lim : limits) (s : str) : outcome json :=
  if startswith s [65279%N] then Raised JSONDecodeError
  else decode lim s.

(** The limits of a default CPython 3.11 and later. *)
Definition default_limits : limits :=
  {| recursion_limit := 1000; int_max_str_digits := 4300 |}.

End Json.

(** A scanner consumes: when it returns, the text left is shorter than the
    text given; and it does not run out of fuel. *)
Definition consuming {A} (scan : str → outcome (A * str)) : Prop :=
  ∀ s, match scan s with
       | Returned (_, rest) => length rest < length s
       | Raised e => e ≠ MemoryError
       end.

(* ===================================================================== *)
(** * The line classifier *)
(* ===================================================================== *)

Section classifier.
(** [json.loads], from the standard library. *)
Variable json_loads : str → outcome json.

(** The severity prefixes of line 23. *)
Definition log_prefixes : list str :=
  [u "info:"; u "warn:"; u "error:"; u "dbug:"; u "fail:"; u "crit:"].

(** [filter_logs(line)], lines 14-26. *)
Definition filter_logs (line : str) : outcome bool :=
  try_except
    (json_loads line;;
     Returned true)
    (if truthy (strip line)
        && negb (any (λ prefix, startswith line prefix) log_prefixes)
     then Returned true
     else Returned false).
End classifier.

(** What the branch under [except] of [filter_logs] computes. *)
Definition except_verdict (line : str) : bool :=
  truthy (strip line)
  && negb (any (λ prefix, startswith line prefix) log_prefixes).


(* ===================================================================== *)
(** * A model of CPython's UTF-8 decoder with [errors='ignore'] *)
(* ===================================================================== *)

(** [bytes.decode('utf-8', errors='ignore')], after the decoder of
    [Objects/stringlib/codecs.h]: a well-formed sequence gives its code
    point; an invalid start byte is skipped; a sequence broken by a byte that
    cannot continue it is skipped up to that byte, which is read again; a
    sequence cut short by the end of the data is dropped. *)
Module Utf8.

Definition is_continuation (c : N) : bool := ((128 <=? c) && (c <=? 191))%N.

(** The low six bits of a continuation byte appended to [acc]. *)
Definition push (acc c : N) : N := N.lor (N.shiftl acc 6) (N.land c 63).

Fixpoint decode_units (s : list N) : str :=
  match s with
  | [] => []
  | ch :: s1 =>
      if (ch <? 128)%N then ch :: decode_units s1
      else if (ch <? 194)%N then decode_units s1
      else if (ch <? 224)%N then
        match s1 with
        | [] => []
        | ch2 :: s2 =>
            if is_continuation ch2
            then push (N.land ch 31) ch2 :: decode_units s2
            else decode_units s1
        end
      else if (ch <? 240)%N then
        match s1 with
        | [] => []
        | ch2 :: s2 =>
            if negb (is_continuation ch2)
               || (if (ch2 <? 160)%N then (ch =? 224)%N else (ch =? 237)%N)
            then decode_units s1
            else
              match s2 with
              | [] => []
              | ch3 :: s3 =>
                  if is_continuation ch3
                  then push (push (N.land ch 15) ch2) ch3 :: decode_units s3
                  else decode_units s2
              end
        end
      else if (ch <? 245)%N then
        match s1 with
        | [] => []
        | ch2 :: s2 =>
            if negb (is_continuation ch2)
               || (if (ch2 <? 144)%N then (ch =? 240)%N else (ch =? 244)%N)
            then decode_units s1
            else
              match s2 with
              | [] => []
              | ch3 :: s3 =>
                  if negb (is_continuation ch3) then decode_units s2
                  else
                    match s3 with
                    | [] => []
                    | ch4 :: s4 =>
                        if is_continuation ch4
                        then push (push (push (N.land ch 7) ch2) ch3) ch4
                             :: decode_units s4
                        else decode_units s3
                    end
              end
        end
      else decode_units s1
  end.

Definition decode_ignore (data : bytes) : str :=
  decode_units (map Byte.to_N data).

End Utf8.

(* ===================================================================== *)
(** * Byte streams *)
(* ===================================================================== *)

(** A readable binary stream is the bytes that are still to be read; the end
    of the list is the end of the stream. *)
Definition istream := bytes.

(** [input_stream.readline()]: the bytes up to and including the next
    newline, or all that is left; [b''] at the end of the stream.  Returns
    the line and the stream after the read. *)
Fixpoint readline (s : istream) : bytes * istream :=
  match s with
  | [] => ([], [])
  | c :: s' =>
      if Byte.eqb c x0a then ([c], s')
      else let '(line, rest) := readline s' in (c :: line, rest)
  end.

(** A buffered writable stream: what has reached the other end, and what
    [write] has put in the buffer since the last [flush]. *)
Record ostream : Type := {
  delivered : bytes;
  buffered : bytes;
}.

Definition write (o : ostream) (data : bytes) : ostream :=
  {| delivered := delivered o; buffered := buffered o ++ data |}.

Definition flush (o : ostream) : ostream :=
  {| delivered := delivered o ++ buffered o; buffered := [] |}.

Definition empty_ostream : ostream := {| delivered := []; buffered := [] |}.

(** The value of an expression together with the equation that names it. *)
Definition inspect {A} (a : A) : {x : A | a = x} := exist _ a eq_refl.

(** [iter(input_stream.readline, b'')]: the lines [readline] returns, up to
    the first [b'']. *)
Equations? iter_readline (s : istream) : list bytes by wf (length s) lt :=
iter_readline s with inspect (readline s) := {
  | exist _ ([], _) _ => [];
  | exist _ (c :: line, rest) Hread => (c :: line) :: iter_readline rest }.
Proof.
  assert (∀ t : istream, t ≠ [] → length (readline t).2 < length t) as Hlt.
  { clear. intros t. induction t as [|c t IH]; [done|]. intros _. simpl.
    destruct (Byte.eqb c x0a); simpl; [lia|].
    destruct t as [|c' t']; [simpl; lia|].
    specialize (IH ltac:(done)).
    destruct (readline (c' :: t')) as [line rest]. simpl in *. lia. }
  assert (s ≠ []) as Hs by (intros ->; discriminate).
  apply Hlt in Hs. by rewrite Hread in Hs.
Qed.

(* ===================================================================== *)
(** * The stream forwarder *)
(* ===================================================================== *)

(** How the body of a [for] loop ends: it falls through to the next item, or
    it executes [break]. *)
Inductive control : Type := Continue | Break.

(** [for x in items: body], threading the state [S] of the loop. *)
Fixpoint for_each {S X} (body : S → X → outcome (control * S))
    (st : S) (items : list X) : outcome S :=
  match items with
  | [] => Returned st
  | x :: items' =>
      '(c, st') ← body st x;
      match c with
      | Break => Returned st'
      | Continue => for_each body st' items'
      end
  end.

Section forwarder.
(** [json.loads] and [bytes.decode('utf-8', errors='ignore')], from the
    standard library. *)
Variable json_loads : str → outcome json.
Variable decode : bytes → str.

(** The body of the loop of [forward_stream], lines 31-42. *)
Definition forward_line (should_filter : bool) (output_stream : ostream)
    (line : bytes) : outcome (control * ostream) :=
  if negb (truthy line) then Returned (Break, output_stream)
  else
    let line_str := decode line in
    if should_filter then
      keep ← filter_logs json_loads line_str;
      if keep : bool
      then Returned (Continue, flush (write output_stream line))
      else Returned (Continue, output_stream)
    else Returned (Continue, flush (write output_stream line)).

(** [forward_stream(input_stream, output_stream, should_filter)], lines
    28-42; returns the output stream as the loop leaves it. *)
Definition forward_stream (input_stream : istream) (output_stream : ostream)
    (should_filter : bool) : outcome ostream :=
  for_each (forward_line should_filter) output_stream
    (iter_readline input_stream).
(** Whether [forward_stream] writes a line: always when it does not filter,
    and otherwise when the classifier returns [True] on the decoded line. *)
Definition forwarded (should_filter : bool) (line : bytes) : bool :=
  negb should_filter
  || bool_decide (filter_logs json_loads (decode line) = Returned true).

End forwarder.

(* ===================================================================== *)
(** * The process supervisor *)
(* ===================================================================== *)

(** [subprocess.PIPE], [subprocess.DEVNULL], or no redirection. *)
Inductive redirect : Type := PIPE | DEVNULL | INHERIT.

(** The arguments of the [subprocess.Popen] call. *)
Record popen_args : Type := {
  args : list string;
  stdin : redirect;
  stdout : redirect;
  stderr : redirect;
  env : gmap string string;
}.

(** How a child process ends: it exits with a status in 0..255, or a signal
    kills it. *)
Inductive termination : Type :=
| Exited (status : Z)
| Signaled (signum : Z).

(** [Popen.returncode] after [wait()]: the exit status, or the negated
    signal number. *)
Definition returncode (t : termination) : Z :=
  match t with
  | Exited status => status
  | Signaled signum => - signum
  end.

(** The ends of the four pipes and streams the forwarders connect. *)
Inductive endpoint : Type :=
| sys_stdin_buffer
| process_stdin
| process_stdout
| sys_stdout_buffer.

(** The arguments of a [forward_stream] thread, and its [daemon] flag. *)
Record forwarder_thread : Type := {
  input_stream : endpoint;
  output_stream : endpoint;
  should_filter : bool;
  daemon : bool;
}.

(** Where a [forward_stream] thread stands at some moment: it has ended
    (its loop returned, or it raised), or it is inside
    [input_stream.readline()] waiting for a line, or it is inside
    [output_stream.write] or [flush].  A thread inside a call on a buffered
    stream holds the lock of that stream. *)
Inductive thread_state : Type :=
| Finished
| InReadline
| InWrite.

(** What the script sees of its surroundings: [os.environ], [sys.argv],
    what the operating system does with a request to start a process, either
    the [OSError] that [Popen] raises or the way the started child ends, and
    where each thread that [main] started stands when the main thread ends
    and the interpreter shuts down.  The last depends on the caller: the
    thread that reads the caller's standard input is still in [readline]
    when that input is open and no line is pending. *)
Record world : Type := {
  environ : gmap string string;
  argv : list string;
  launch : popen_args → outcome termination;
  thread_at_exit : forwarder_thread → thread_state;
}.

(** What [main] does to its surroundings, in order. *)
Inductive event : Type :=
| Popen (request : popen_args)
| ThreadStart (thread : forwarder_thread)
| ProcessWait.

(** The [Popen] calls among the events of a run. *)
Definition popen_calls (events : list event) : list popen_args :=
  omap (λ ev, match ev with Popen request => Some request | _ => None end)
       events.

(** The threads started among the events of a run. *)
Definition threads_started (events : list event) : list forwarder_thread :=
  omap (λ ev, match ev with ThreadStart thread => Some thread | _ => None end)
       events.

Definition exe_path : string :=
  "/mnt/c/Users/Kosta/source/repos/StampliMCP/StampliMCP.McpServer.Unified/bin/Debug/net10.0/stampli-mcp-unified.dll".

(** The environment of lines 49-51. *)
Definition child_env (w : world) : gmap string string :=
  let env := environ w in
  let env := <["Logging__Console__LogLevel__Default" := "None"]> env in
  let env := <["DOTNET_ENVIRONMENT" := "Production"]> env in
  env.

(** The [Popen] call of lines 54-60. *)
Definition popen_request (w : world) : popen_args :=
  {| args := exe_path :: drop 1 (argv w);
     stdin := PIPE;
     stdout := PIPE;
     stderr := DEVNULL;
     env := child_env w |}.

Definition stdin_thread : forwarder_thread :=
  {| input_stream := sys_stdin_buffer; output_stream := process_stdin;
     should_filter := false; daemon := true |}.

Definition stdout_thread : forwarder_thread :=
  {| input_stream := process_stdout; output_stream := sys_stdout_buffer;
     should_filter := true; daemon := true |}.

(** [main()], lines 44-80: the events it causes and how it ends.  It never
    returns: either [Popen] raises, or [sys.exit] raises [SystemExit]. *)
Definition main (w : world) : list event * outcome () :=
  let request := popen_request w in
  match launch w request with
  | Raised e => ([Popen request], Raised e)
  | Returned process =>
      ([Popen request; ThreadStart stdin_thread; ThreadStart stdout_thread;
        ProcessWait],
       Raised (SystemExit (returncode process)))
  end.

(** What the caller of the script observes when the interpreter ends: how
    the process ended, the traceback the interpreter printed on the standard
    error stream for the exception that ended the main thread, and whether it
    printed a fatal error there. *)
Record exit_report : Type := {
  ending : termination;
  tracebacks : list exn;
  fatal_error : bool;
}.

(** The status of the script as its caller reads it, in the convention of
    [returncode]. *)
Definition exit_status (r : exit_report) : Z := returncode (ending r).

(** The interpreter's own standard streams, which it flushes and closes when
    it shuts down. *)
Definition is_std_stream (e : endpoint) : bool :=
  match e with
  | sys_stdin_buffer | sys_stdout_buffer => true
  | process_stdin | process_stdout => false
  end.

(** Whether a thread in state [st] holds the lock of a standard stream that
    the shutdown cannot get back.  The interpreter waits for a thread that is
    not a daemon, which so ends; a daemon thread is frozen where it stands. *)
Definition holds_std_stream (thread : forwarder_thread) (st : thread_state)
    : bool :=
  daemon thread
  && match st with
     | Finished => false
     | InReadline => is_std_stream (input_stream thread)
     | InWrite => is_std_stream (output_stream thread)
     end.

(** The shutdown of the interpreter, once the main thread has ended with
    [status] to report.  When a daemon thread holds the lock of a standard
    stream, CPython cannot flush and close that stream: it prints
    [Fatal Python error: _enter_buffered_busy: could not acquire lock ... at
    interpreter shutdown, possibly due to daemon threads] and calls
    [abort()], so that the process is killed by [SIGABRT], signal 6.
    Otherwise the process exits with [status]. *)
Definition shutdown (w : world) (events : list event) (status : Z)
    (printed : list exn) : exit_report :=
  if existsb (λ thread, holds_std_stream thread (thread_at_exit w thread))
             (threads_started events)
  then {| ending := Signaled 6; tracebacks := printed; fatal_error := true |}
  else {| ending := Exited status; tracebacks := printed;
          fatal_error := false |}.

(** The interpreter running [if __name__ == '__main__': main()]: a
    [SystemExit] ends the main thread silently with the low eight bits of
    its code as status; any other exception that nothing caught is printed
    as a traceback on the standard error stream and the status is 1.  Then
    the interpreter shuts down. *)
Definition run_script (w : world) : exit_report :=
  let '(events, result) := main w in
  match result with
  | Returned _ => shutdown w events 0 []
  | Raised (SystemExit code) => shutdown w events (Z.land code 255) []
  | Raised e => shutdown w events 1 [e]
  end.

(* ===================================================================== *)
(** * The forwarder over any output stream, and the framing of lines *)
(* ===================================================================== *)

(** [forward_stream] asks two things of [output_stream], a [write] and a
    [flush] method.  This is its text once more, lines 28-42, over a stream
    state [S] of any kind; [forward_stream] is its instance at [ostream]. *)
Section forwarder_on.
Context {S : Type}.
Variable stream_write : S → bytes → S.
Variable stream_flush : S → S.
Variable json_loads : str → outcome json.
Variable decode : bytes → str.

Definition forward_line_on (should_filter : bool) (output_stream : S)
    (line : bytes) : outcome (control * S) :=
  if negb (truthy line) then Returned (Break, output_stream)
  else
    let line_str := decode line in
    if should_filter then
      keep ← filter_logs json_loads line_str;
      if keep : bool
      then Returned (Continue, stream_flush (stream_write output_stream line))
      else Returned (Continue, output_stream)
    else Returned (Continue, stream_flush (stream_write output_stream line)).

Definition forward_stream_on (input_stream : istream) (output_stream : S)
    (should_filter : bool) : outcome S :=
  for_each (forward_line_on should_filter) output_stream
    (iter_readline input_stream).

(** The lines of the input that [forward_stream] writes, in order. *)
Definition kept_lines (should_filter : bool) (input : istream) : list bytes :=
  List.filter (forwarded json_loads decode should_filter)
              (iter_readline input).
End forwarder_on.

(** A line that ends with its only newline, and a line without newline. *)
Definition terminated (line : bytes) : Prop :=
  last line = Some x0a ∧ x0a ∉ removelast line.

Definition unterminated (line : bytes) : Prop :=
  line ≠ [] ∧ x0a ∉ line.

(** A sequence of lines as a stream frames them: every line ends with its
    only newline, but the last one, which may have none. *)
Inductive framed : list bytes → Prop :=
| framed_nil : framed []
| framed_last line : unterminated line → framed [line]
| framed_cons line lines :
    terminated line → framed lines → framed (line :: lines).

(** A stream is cut at a line boundary when it is empty or ends with a
    newline. *)
Definition line_aligned (s : istream) : Prop := s = [] ∨ last s = Some x0a.



(* ===================================================================== *)
(** * Concrete inputs *)
(* ===================================================================== *)

(** The standard-library models the examples run on. *)
Definition py_json_loads : str → outcome json := Json.loads Json.default_limits.

(** The JSON string literal of an ASCII text without escapes. *)
Definition quoted (s : string) : str := 34%N :: u s ++ [34%N].

(** The request of the specification's first scenario, an object with the
    members [id], the number 1, and [method], the string [ping]. *)
Definition ping_request : str :=
  u "{" ++ quoted "id" ++ u ":1," ++ quoted "method" ++ u ":"
  ++ quoted "ping" ++ u "}".

Definition ping_value : json :=
  JObject [(u "id", JNumber (u "1") false); (u "method", JString (u "ping"))].

(** Four lines a child may print: a message, a log line, free text, and a
    blank line. *)
Definition child_output : bytes :=
  b "{}" ++ [x0a] ++ b "info: server started" ++ [x0a]
  ++ b "unexpected free text" ++ [x0a] ++ b "  " ++ [x0a].

(** Two messages of a child, one line each. *)
Definition json_output : bytes :=
  b "{}" ++ [x0a] ++ b "[1, 2]" ++ [x0a].

(** A line of a log, with its newline. *)
Definition log_line : bytes := b "warn: disk low" ++ [x0a].

(** A caller, and a system in which every [Popen] ends as [result] says.
    The caller has closed the standard input and the output is written: both
    threads have ended when the interpreter shuts down. *)
Definition example_world (result : outcome termination) : world :=
  {| environ := {["PATH" := "/usr/bin"]};
     argv := ["mcp-wrapper.py"; "--stdio"];
     launch := λ _, result;
     thread_at_exit := λ _, Finished |}.

(** The same, with a caller that keeps the standard input open and sends
    nothing more: when the child ends, the thread of lines 63-68 is in
    [sys.stdin.buffer.readline()]. *)
Definition idle_caller (result : outcome termination) : world :=
  {| environ := {["PATH" := "/usr/bin"]};
     argv := ["mcp-wrapper.py"; "--stdio"];
     launch := λ _, result;
     thread_at_exit := λ thread,
       match input_stream thread with
       | sys_stdin_buffer => InReadline
       | _ => Finished
       end |}.

(** The executable is not where [exe_path] says. *)
Definition missing_executable : world :=
  example_world (Raised FileNotFoundError).

(* ===================================================================== *)
(** * Properties of the [str] methods *)
(* ===================================================================== *)

Lemma lstrip_nil_iff (s : str) : lstrip s = [] ↔ forallb isspace s = true.
Proof.
  induction s as [|c s IH]; simpl; [done|].
  destruct (isspace c); simpl; [done|]. split; discriminate.
Qed.

Lemma forallb_reverse {A} (p : A → bool) (l : list A) :
  forallb p (reverse l) = forallb p l.
Proof.
  induction l as [|x l IH]; [done|].
  rewrite reverse_cons, forallb_app, IH. simpl. rewrite andb_true_r.
  apply andb_comm.
Qed.

Lemma lstrip_blank_nil (s : str) :
  forallb isspace (lstrip s) = true → lstrip s = [].
Proof.
  induction s as [|c s IH]; simpl; [done|].
  destruct (isspace c) eqn:Hc; [done|]. simpl. rewrite Hc. discriminate.
Qed.

(** [s.strip()] is empty exactly when [s] is empty or all whitespace. *)
Lemma strip_nil_iff (s : str) : strip s = [] ↔ forallb isspace s = true.
Proof.
  unfold strip, rstrip. split.
  - intros H. apply (f_equal reverse) in H. rewrite reverse_involutive in H.
    change (reverse []) with (@nil N) in H.
    apply lstrip_nil_iff in H. rewrite forallb_reverse in H.
    apply lstrip_blank_nil in H. by apply lstrip_nil_iff.
  - intros H. apply lstrip_nil_iff in H. by rewrite H.
Qed.

Lemma truthy_strip_blank (s : str) :
  forallb isspace s = true → truthy (strip s) = false.
Proof. intros H. apply strip_nil_iff in H. by rewrite H. Qed.

Lemma truthy_true {A} (l : list A) : l ≠ [] → truthy l = true.
Proof. by destruct l. Qed.

Lemma startswith_app (prefix text : str) :
  startswith (prefix ++ text) prefix = true.
Proof.
  induction prefix as [|p prefix IH]; simpl; [done|].
  by rewrite N.eqb_refl.
Qed.

(** [startswith] decides the prefix relation. *)
Lemma startswith_true_iff (s prefix : str) :
  startswith s prefix = true ↔ ∃ text, s = prefix ++ text.
Proof.
  split.
  - revert s. induction prefix as [|p prefix IH]; intros s H; [by exists s|].
    destruct s as [|c s]; [done|]. simpl in H.
    apply andb_true_iff in H as [Hc H]. apply N.eqb_eq in Hc as ->.
    destruct (IH _ H) as [text ->]. by exists text.
  - intros [text ->]. apply startswith_app.
Qed.

Lemma any_true_iff {A} (f : A → bool) (l : list A) :
  any f l = true ↔ ∃ x, x ∈ l ∧ f x = true.
Proof.
  unfold any. rewrite existsb_exists. by setoid_rewrite list_elem_of_In.
Qed.

Lemma any_false_iff {A} (f : A → bool) (l : list A) :
  any f l = false ↔ ∀ x, x ∈ l → f x = false.
Proof.
  rewrite <-not_true_iff_false, any_true_iff. split.
  - intros H x Hx. apply not_true_iff_false. intros Hf. apply H. eauto.
  - intros H (x & Hx & Hf). rewrite (H x Hx) in Hf. discriminate.
Qed.

(* ===================================================================== *)
(** * The JSON decoder on blank text *)
(* ===================================================================== *)

Lemma isspace_cases (c : N) :
  isspace c = true →
  c ∈ [9; 10; 11; 12; 13; 28; 29; 30; 31; 32; 133; 160; 5760; 8192; 8193;
       8194; 8195; 8196; 8197; 8198; 8199; 8200; 8201; 8202; 8232; 8233;
       8239; 8287; 12288]%N.
Proof.
  unfold isspace.
  rewrite !orb_true_iff, !andb_true_iff, !N.leb_le, !N.eqb_eq.
  intros H. rewrite !elem_of_cons, elem_of_nil. lia.
Qed.

(** No whitespace character, JSON's or Python's, starts a JSON value. *)
Lemma scan_once_isspace lim depth (c : N) (s : str) :
  isspace c = true → Json.scan_once lim depth (c :: s) = Raised StopIteration.
Proof.
  intros H%isspace_cases.
  repeat (apply elem_of_cons in H as [->|H]; [by destruct depth|]).
  by apply elem_of_nil in H.
Qed.

Lemma scan_once_nil lim depth : Json.scan_once lim depth [] = Raised StopIteration.
Proof. by destruct depth. Qed.

Lemma skip_whitespace_blank (s : str) :
  forallb isspace s = true → forallb isspace (Json.skip_whitespace s) = true.
Proof.
  induction s as [|c s IH]; simpl; [done|].
  intros [Hc Hs]%andb_true_iff.
  destruct (Json.is_whitespace c); [by apply IH|].
  simpl. by rewrite Hc, Hs.
Qed.

(** [json.loads] raises [JSONDecodeError] on an empty or blank text. *)
Lemma loads_blank lim (s : str) :
  forallb isspace s = true → Json.loads lim s = Raised JSONDecodeError.
Proof.
  intros H. unfold Json.loads. destruct (startswith s _); [done|].
  unfold Json.decode, Json.raw_decode.
  apply skip_whitespace_blank in H.
  destruct (Json.skip_whitespace s) as [|c s'].
  - by rewrite scan_once_nil.
  - simpl in H. apply andb_true_iff in H as [Hc _].
    by rewrite scan_once_isspace.
Qed.

(** No text that starts with a severity prefix is JSON. *)
Lemma loads_severity_prefix lim (prefix text : str) :
  prefix ∈ log_prefixes →
  Json.loads lim (prefix ++ text) = Raised JSONDecodeError.
Proof.
  intros Hin. unfold Json.loads, Json.decode, Json.raw_decode.
  repeat (apply elem_of_cons in Hin as [->|Hin];
          [by destruct (Json.recursion_limit lim)|]).
  by apply elem_of_nil in Hin.
Qed.

(* ===================================================================== *)
(** * Properties of the line classifier *)
(* ===================================================================== *)

Section classifier_properties.
Variable json_loads : str → outcome json.

(** What [filter_logs] returns when [json.loads] raises, whatever it
    raises. *)
Lemma filter_logs_raised (line : str) (e : exn) :
  json_loads line = Raised e →
  filter_logs json_loads line =
    Returned (except_verdict line).
Proof.
  intros H. unfold filter_logs, except_verdict. rewrite H.
  cbn [try_except mbind outcome_bind]. by destruct (_ && _).
Qed.

(** C1.  A line that [json.loads] parses is classified [True], whatever it
    contains or starts with. *)
Theorem filter_logs_json (line : str) (value : json) :
  json_loads line = Returned value →
  filter_logs json_loads line = Returned true.
Proof. intros H. unfold filter_logs. by rewrite H. Qed.

(** C2.  A line made of one of the six severity prefixes followed by any
    text, and that [json.loads] does not parse, is classified [False]. *)
Theorem filter_logs_severity_prefix (prefix text : str) (e : exn) :
  prefix ∈ log_prefixes →
  json_loads (prefix ++ text) = Raised e →
  filter_logs json_loads (prefix ++ text) = Returned false.
Proof.
  intros Hprefix Hjson. rewrite (filter_logs_raised _ _ Hjson).
  unfold except_verdict.
  assert (any (λ p, startswith (prefix ++ text) p) log_prefixes = true) as ->.
  { apply any_true_iff. exists prefix. split; [done|apply startswith_app]. }
  by rewrite andb_false_r.
Qed.

(** C3.  A line that [json.loads] does not parse, that is not empty once
    stripped, and that starts with none of the six severity prefixes is
    classified [True]. *)
Theorem filter_logs_other_text (line : str) (e : exn) :
  json_loads line = Raised e →
  strip line ≠ [] →
  (∀ prefix, prefix ∈ log_prefixes → startswith line prefix = false) →
  filter_logs json_loads line = Returned true.
Proof.
  intros Hjson Hstrip Hprefix. rewrite (filter_logs_raised _ _ Hjson).
  unfold except_verdict. rewrite (truthy_true _ Hstrip).
  assert (any (λ p, startswith line p) log_prefixes = false) as ->; [|done].
  by apply any_false_iff.
Qed.

(** [filter_logs] returns a boolean on every [str], whatever [json.loads]
    does. *)
Lemma filter_logs_total (line : str) :
  ∃ keep : bool, filter_logs json_loads line = Returned keep.
Proof.
  destruct (json_loads line) as [value|e] eqn:H.
  - exists true. unfold filter_logs. by rewrite H.
  - eexists. by eapply filter_logs_raised.
Qed.

End classifier_properties.

(** C4.  An empty or whitespace-only line is classified [False]:
    [json.loads] raises on it, and nothing is left of it once stripped. *)
Theorem filter_logs_blank lim (line : str) :
  forallb isspace line = true →
  filter_logs (Json.loads lim) line = Returned false.
Proof.
  intros H. rewrite (filter_logs_raised _ _ _ (loads_blank lim _ H)).
  unfold except_verdict. by rewrite truthy_strip_blank.
Qed.

(** X3.  With CPython's decoder a line that starts with a severity prefix
    is always dropped: such a line is never JSON, so the second premise of
    C2 always holds. *)
Corollary severity_prefix_always_dropped lim (prefix text : str) :
  prefix ∈ log_prefixes →
  filter_logs (Json.loads lim) (prefix ++ text) = Returned false.
Proof.
  intros Hin. rewrite (filter_logs_raised _ _ _ (loads_severity_prefix lim _ _ Hin)).
  unfold except_verdict.
  assert (any (λ p, startswith (prefix ++ text) p) log_prefixes = true) as ->.
  { apply any_true_iff. exists prefix. split; [done|apply startswith_app]. }
  by rewrite andb_false_r.
Qed.

(* ===================================================================== *)
(** * Properties of [readline] and of the line iterator *)
(* ===================================================================== *)

(** A read splits the stream: nothing is lost and nothing is invented. *)
Lemma readline_app (s : istream) : (readline s).1 ++ (readline s).2 = s.
Proof.
  induction s as [|c s IH]; [done|]. simpl.
  destruct (Byte.eqb c x0a); [done|].
  destruct (readline s) as [line rest]. simpl in *. by rewrite IH.
Qed.

Lemma iter_readline_step (s : istream) (line : bytes) (rest : istream) :
  readline s = (line, rest) → line ≠ [] →
  iter_readline s = line :: iter_readline rest.
Proof.
  intros Hread Hline.
  funelim (iter_readline s);
    match goal with
    | E1 : readline ?s = _, E2 : readline ?s = _ |- _ =>
        rewrite E1 in E2; injection E2; intros; subst
    end; done.
Qed.

Lemma iter_readline_nil : iter_readline [] = [].
Proof. reflexivity. Qed.

Lemma readline_cons_nonempty (c : byte) (s : istream) :
  (readline (c :: s)).1 ≠ [].
Proof.
  simpl. destruct (Byte.eqb c x0a); [done|]. by destruct (readline s).
Qed.

Lemma readline_shorter (c : byte) (s : istream) :
  length (readline (c :: s)).2 ≤ length s.
Proof.
  pose proof (readline_app (c :: s)) as Happ.
  pose proof (readline_cons_nonempty c s) as Hne.
  apply (f_equal length) in Happ. rewrite length_app in Happ.
  destruct (readline (c :: s)).1; [done|]. simpl in *. lia.
Qed.

Lemma iter_readline_cons (c : byte) (s : istream) :
  iter_readline (c :: s) =
    (readline (c :: s)).1 :: iter_readline (readline (c :: s)).2.
Proof.
  apply iter_readline_step; [|apply readline_cons_nonempty].
  by destruct (readline (c :: s)).
Qed.

(** Induction on a stream, one line at a time. *)
Lemma istream_line_ind (P : istream → Prop) :
  P [] →
  (∀ c s, P (readline (c :: s)).2 → P (c :: s)) →
  ∀ s, P s.
Proof.
  intros Hnil Hcons s.
  assert (∀ n t, length t < n → P t) as H; [|apply (H (S (length s))); lia].
  clear s. induction n as [|n IH]; intros s Hlen; [lia|].
  destruct s as [|c s]; [done|]. apply Hcons, IH.
  pose proof (readline_shorter c s). simpl in Hlen. lia.
Qed.

(** The lines, put end to end, are the stream. *)
Lemma concat_iter_readline (s : istream) : concat (iter_readline s) = s.
Proof.
  induction s as [|c s IH] using istream_line_ind; [done|].
  rewrite iter_readline_cons. cbn [concat]. rewrite IH.
  apply readline_app.
Qed.

(** The iterator never yields [b'']. *)
Lemma iter_readline_nonempty (s : istream) :
  Forall (λ line, line ≠ []) (iter_readline s).
Proof.
  induction s as [|c s IH] using istream_line_ind; [constructor|].
  rewrite iter_readline_cons. constructor; [|done].
  apply readline_cons_nonempty.
Qed.

(** A line holds no newline before its last byte. *)
Lemma readline_newline (s : istream) :
  x0a ∉ removelast (readline s).1.
Proof.
  induction s as [|c s IH]; simpl; [apply not_elem_of_nil|].
  destruct (Byte.eqb c x0a) eqn:Hc; [apply not_elem_of_nil|].
  destruct (readline s) as [[|c' line] rest]; [apply not_elem_of_nil|].
  simpl in *. apply not_elem_of_cons. split; [|done].
  intros <-. by vm_compute in Hc.
Qed.

(* ===================================================================== *)
(** * Properties of the stream forwarder *)
(* ===================================================================== *)

Section forwarder_properties.
Variable json_loads : str → outcome json.
Variable decode : bytes → str.

(** One turn of the loop on a line that is not empty: the line is written
    whole and flushed, or the stream is left as it is. *)
Lemma forward_line_spec (should_filter : bool) (o : ostream) (line : bytes) :
  line ≠ [] →
  forward_line json_loads decode should_filter o line =
    Returned (Continue,
              if forwarded json_loads decode should_filter line
              then flush (write o line) else o).
Proof.
  intros Hline. unfold forward_line, forwarded.
  rewrite (truthy_true _ Hline). simpl negb. cbv iota.
  destruct should_filter; [|done]. simpl negb. rewrite orb_false_l.
  destruct (filter_logs_total json_loads (decode line)) as [keep ->].
  by destruct keep.
Qed.

(** The loop over lines that are not empty. *)
Lemma for_each_forward_line (should_filter : bool) (lines : list bytes) :
  Forall (λ line, line ≠ []) lines →
  ∀ o, buffered o = [] →
  for_each (forward_line json_loads decode should_filter) o lines =
    Returned {| delivered :=
                  delivered o
                  ++ concat (List.filter
                               (forwarded json_loads decode should_filter)
                               lines);
                buffered := [] |}.
Proof.
  induction 1 as [|line lines Hline _ IH]; intros o Ho.
  - simpl. rewrite app_nil_r. destruct o. simpl in Ho. by subst.
  - simpl for_each. rewrite (forward_line_spec _ _ _ Hline).
    cbn [mbind outcome_bind]. simpl List.filter.
    destruct (forwarded json_loads decode should_filter line).
    + rewrite IH by done. simpl. rewrite Ho, app_nil_l. by rewrite <-app_assoc.
    + by rewrite IH.
Qed.

(** The closed form of [forward_stream]: the kept lines, put end to end,
    after what the destination had received. *)
Lemma forward_stream_spec (input : istream) (o : ostream) (should_filter : bool) :
  buffered o = [] →
  forward_stream json_loads decode input o should_filter =
    Returned {| delivered :=
                  delivered o
                  ++ concat (List.filter
                               (forwarded json_loads decode should_filter)
                               (iter_readline input));
                buffered := [] |}.
Proof.
  intros Ho. unfold forward_stream.
  by apply for_each_forward_line; [apply iter_readline_nonempty|].
Qed.

Lemma filter_sublist {A} (f : A → bool) (l : list A) :
  List.filter f l `sublist_of` l.
Proof.
  induction l as [|x l IH]; simpl; [constructor|].
  destruct (f x); by constructor.
Qed.

Lemma filter_all {A} (f : A → bool) (l : list A) :
  (∀ x, f x = true) → List.filter f l = l.
Proof.
  intros Hf. induction l as [|x l IH]; simpl; [done|]. by rewrite Hf, IH.
Qed.

(** C5.  Without filtering, [forward_stream] returns at the end of the
    stream and the destination has received, after what it already had, the
    bytes of the source, all of them and in their order. *)
Theorem forward_stream_identity (input : istream) (o : ostream) :
  buffered o = [] →
  forward_stream json_loads decode input o false =
    Returned {| delivered := delivered o ++ input; buffered := [] |}.
Proof.
  intros Ho. rewrite forward_stream_spec by done.
  rewrite filter_all by done. by rewrite concat_iter_readline.
Qed.

(** C6.  In both modes, what [forward_stream] delivers is a subsequence of
    the lines it read, each whole and as read, in the order read: a byte of
    the source goes out once, with its line, or not at all. *)
Theorem forward_stream_whole_lines
    (input : istream) (o : ostream) (should_filter : bool) :
  buffered o = [] →
  ∃ kept : list bytes,
    forward_stream json_loads decode input o should_filter =
      Returned {| delivered := delivered o ++ concat kept; buffered := [] |}
    ∧ kept `sublist_of` iter_readline input
    ∧ concat (iter_readline input) = input.
Proof.
  intros Ho.
  exists (List.filter (forwarded json_loads decode should_filter)
                      (iter_readline input)).
  split; [by apply forward_stream_spec|].
  split; [apply filter_sublist|apply concat_iter_readline].
Qed.

(** C10.  [filter_logs] returns a boolean on every [str]: [True] when
    [json.loads] returns, and the verdict of the [except] branch when it
    raises, whatever it raises.  With filtering on, [forward_stream] applies
    it to the decoded line and writes the bytes of the line as read. *)
Theorem filter_logs_never_raises (line : str) (input : istream) :
  filter_logs json_loads line =
    Returned match json_loads line with
             | Returned _ => true
             | Raised _ => except_verdict line
             end
  ∧ forward_stream json_loads decode input empty_ostream true =
      Returned
        {| delivered :=
             concat (List.filter
                       (λ raw, bool_decide (filter_logs json_loads (decode raw)
                                            = Returned true))
                       (iter_readline input));
           buffered := [] |}.
Proof.
  split.
  - destruct (json_loads line) as [value|e] eqn:H.
    + unfold filter_logs. by rewrite H.
    + by apply (filter_logs_raised _ _ e).
  - by rewrite forward_stream_spec.
Qed.

End forwarder_properties.

(* ===================================================================== *)
(** * Properties of the process supervisor *)
(* ===================================================================== *)



(** How the script ends once the child has started and ended. *)
Lemma run_script_child_started (w : world) (process : termination) :
  launch w (popen_request w) = Returned process →
  run_script w =
    if holds_std_stream stdin_thread (thread_at_exit w stdin_thread)
       || holds_std_stream stdout_thread (thread_at_exit w stdout_thread)
    then {| ending := Signaled 6; tracebacks := []; fatal_error := true |}
    else {| ending := Exited (Z.land (returncode process) 255);
            tracebacks := []; fatal_error := false |}.
Proof.
  intros H. unfold run_script, main. rewrite H.
  unfold shutdown. cbn [threads_started omap list_omap existsb].
  by rewrite orb_false_r.
Qed.

(** C7, where the script fails it.  [main] waits for the child and hands
    its return code to [sys.exit], but when the child ends while the caller
    keeps the standard input open, the daemon thread of lines 63-68 is still
    in [sys.stdin.buffer.readline()]: the interpreter cannot shut down, it
    prints a fatal error and is killed by [SIGABRT].  The status of the
    child does not reach the caller. *)
Theorem exit_status_lost (w : world) (status : Z) :
  launch w (popen_request w) = Returned (Exited status) →
  thread_at_exit w stdin_thread = InReadline →
  ProcessWait ∈ (main w).1
  ∧ ending (run_script w) = Signaled 6
  ∧ fatal_error (run_script w) = true
  ∧ ending (run_script w) ≠ Exited status.
Proof.
  intros Hlaunch Hstdin. split.
  - unfold main. rewrite Hlaunch. cbn [fst]. rewrite !elem_of_cons. tauto.
  - rewrite (run_script_child_started _ _ Hlaunch), Hstdin. by cbn.
Qed.


(** C8.  [Popen] is called once, with the caller's environment in which
    the two keys of lines 50-51 are set and every other key is as the caller
    has it. *)
Theorem child_environment (w : world) (key : string) :
  popen_calls (main w).1 = [popen_request w]
  ∧ env (popen_request w) !! key =
      if decide (key = "DOTNET_ENVIRONMENT") then Some "Production"
      else if decide (key = "Logging__Console__LogLevel__Default")
           then Some "None"
           else environ w !! key.
Proof.
  split.
  - unfold main. by destruct (launch w (popen_request w)).
  - simpl. unfold child_env.
    destruct (decide (key = "DOTNET_ENVIRONMENT")) as [->|H1].
    { by rewrite lookup_insert_eq. }
    rewrite lookup_insert_ne by done.
    destruct (decide (key = "Logging__Console__LogLevel__Default")) as [->|H2].
    { by rewrite lookup_insert_eq. }
    by rewrite lookup_insert_ne.
Qed.

(** When the child starts, [main] starts the two forwarders, unfiltered from
    the caller to the child and filtered from the child to the caller, then
    waits, and hands the return code to [sys.exit]. *)
Lemma main_child_started (w : world) (process : termination) :
  launch w (popen_request w) = Returned process →
  main w =
    ([Popen (popen_request w); ThreadStart stdin_thread;
      ThreadStart stdout_thread; ProcessWait],
     Raised (SystemExit (returncode process))).
Proof. intros H. unfold main. by rewrite H. Qed.

(** C9, as the script behaves.  When [Popen] raises an [OSError], [main] has
    made that one call and nothing else, the exit status is 1, and the
    interpreter has printed the traceback of the error. *)
Theorem spawn_failure_traceback (w : world) (e : exn) :
  launch w (popen_request w) = Raised e →
  e ∈ [FileNotFoundError; PermissionError; OSError] →
  (main w).1 = [Popen (popen_request w)]
  ∧ exit_status (run_script w) = 1%Z
  ∧ tracebacks (run_script w) = [e].
Proof.
  intros Hlaunch He. unfold run_script, main. rewrite Hlaunch. simpl.
  split; [done|].
  repeat (apply elem_of_cons in He as [->|He]; [done|]).
  by apply elem_of_nil in He.
Qed.

(* ===================================================================== *)
(** * The fuel of the JSON decoder's loops *)
(* ===================================================================== *)

Lemma skip_whitespace_length (s : str) :
  length (Json.skip_whitespace s) ≤ length s.
Proof.
  induction s as [|c s IH]; simpl; [done|].
  destruct (Json.is_whitespace c); simpl; lia.
Qed.

Lemma span_length (p : N → bool) (s : str) :
  length (Json.span p s).2 ≤ length s.
Proof.
  induction s as [|c s IH]; simpl; [done|].
  destruct (p c); [|simpl; lia].
  destruct (Json.span p s). simpl in *. lia.
Qed.

(** Induction on the length of a list. *)
Lemma length_ind {A} (P : list A → Prop) :
  (∀ l, (∀ l', length l' < length l → P l') → P l) → ∀ l, P l.
Proof.
  intros Hstep l.
  assert (∀ n l', length l' < n → P l') as H; [|apply (H (S (length l))); lia].
  clear l. induction n as [|n IH]; intros l Hlen; [lia|].
  apply Hstep. intros l' Hl'. apply IH. lia.
Qed.

Lemma scanstring_consuming : consuming Json.scanstring.
Proof.
  intros s. induction s as [s IH] using length_ind.
  destruct s as [|c s1]; [done|]. simpl.
  destruct (c =? 34)%N; [simpl; lia|].
  destruct (c =? 92)%N.
  - destruct s1 as [|e s2]; [done|].
    destruct (e =? 117)%N.
    + destruct s2 as [|h1 [|h2 [|h3 [|h4 s3]]]]; try done.
      destruct (_ && _); [|done].
      specialize (IH s3 ltac:(simpl; lia)).
      destruct (Json.scanstring s3) as [[body rest]|e']; simpl in *; [lia|done].
    + destruct (Json.is_escape e); [|done].
      specialize (IH s2 ltac:(simpl; lia)).
      destruct (Json.scanstring s2) as [[body rest]|e']; simpl in *; [lia|done].
  - destruct (c <=? 31)%N; [done|].
    specialize (IH s1 ltac:(simpl; lia)).
    destruct (Json.scanstring s1) as [[body rest]|e']; simpl in *; [lia|done].
Qed.

Lemma match_fraction_length (s : str) :
  length (Json.match_fraction s).2 ≤ length s.
Proof.
  destruct s as [|dot [|d s]]; simpl; try lia.
  destruct (_ && _); [|simpl; lia].
  pose proof (span_length Json.isdigit s).
  destruct (Json.span Json.isdigit s). simpl in *. lia.
Qed.

Lemma match_exponent_length (s : str) :
  length (Json.match_exponent s).2 ≤ length s.
Proof.
  destruct s as [|e s1]; simpl; [lia|].
  destruct (_ || _); [|simpl; lia].
  assert (∃ sign s2, (let '(sign, s2) :=
            match s1 with
            | c :: s2 =>
                if ((c =? 43) || (c =? 45))%N then ([c], s2) else ([], s1)
            | [] => ([], s1)
            end in (sign, s2)) = (sign, s2) ∧ length s2 ≤ length s1)
    as (sign & s2 & Heq & Hlen).
  { destruct s1 as [|c s2]; [by eexists _, _|].
    destruct (_ || _); eexists _, _; (split; [done|simpl; lia]). }
  destruct (match s1 with [] => _ | _ => _ end) as [sign' s2'].
  injection Heq as -> ->.
  pose proof (span_length Json.isdigit s2).
  destruct (Json.span Json.isdigit s2) as [ds rest].
  destruct (truthy ds); simpl in *; lia.
Qed.

Lemma number_tail_length lim (sign intpart s : str) :
  match Json.number_tail lim sign intpart s with
  | Returned (_, rest) => length rest ≤ length s
  | Raised e => e ≠ MemoryError
  end.
Proof.
  unfold Json.number_tail.
  pose proof (match_fraction_length s).
  destruct (Json.match_fraction s) as [frac s1].
  pose proof (match_exponent_length s1).
  destruct (Json.match_exponent s1) as [exp s2].
  destruct (_ && _); simpl in *; [done|lia].
Qed.

Lemma match_number_consuming lim : consuming (Json.match_number lim).
Proof.
  intros s. unfold Json.match_number.
  assert (∃ sign s1, match s with
                     | c :: s1 => if (c =? 45)%N then ([c], s1) else ([], s)
                     | [] => ([], s)
                     end = (sign, s1) ∧ length s1 ≤ length s)
    as (sign & s1 & -> & Hlen).
  { destruct s as [|c s1]; [by eexists _, _|].
    destruct (c =? 45)%N; eexists _, _; (split; [done|simpl; lia]). }
  destruct s1 as [|c s2]; [done|].
  destruct (_ && _).
  - pose proof (span_length Json.isdigit s2).
    destruct (Json.span Json.isdigit s2) as [ds rest].
    pose proof (number_tail_length lim sign (c :: ds) rest).
    destruct (Json.number_tail _ _ _ _) as [[v r]|e]; simpl in *; [lia|done].
  - destruct (c =? 48)%N; [|done].
    pose proof (number_tail_length lim sign [c] s2).
    destruct (Json.number_tail _ _ _ _) as [[v r]|e]; simpl in *; [lia|done].
Qed.

Section loops.
Context {scan : str → outcome (json * str)} (Hscan : consuming scan).

Lemma parse_array_items_consuming (fuel : nat) (s : str) :
  length s < fuel →
  match Json.parse_array_items scan fuel s with
  | Returned (_, rest) => length rest < length s
  | Raised e => e ≠ MemoryError
  end.
Proof.
  revert s. induction fuel as [|fuel IH]; intros s Hfuel; [lia|].
  simpl. pose proof (Hscan s) as Hs.
  destruct (scan s) as [[val s1]|e]; [|done]. cbn [mbind outcome_bind].
  pose proof (skip_whitespace_length s1) as Hws.
  destruct (Json.skip_whitespace s1) as [|c s2]; [done|].
  destruct (c =? 93)%N; [simpl in *; lia|].
  destruct (c =? 44)%N; [|done].
  pose proof (skip_whitespace_length s2) as Hws2.
  specialize (IH (Json.skip_whitespace s2) ltac:(simpl in *; lia)).
  destruct (Json.parse_array_items _ _ _) as [[vals rest]|e];
    simpl in *; [lia|done].
Qed.

Lemma parse_array_consuming (s : str) :
  match Json.parse_array scan s with
  | Returned (_, rest) => length rest ≤ length s
  | Raised e => e ≠ MemoryError
  end.
Proof.
  unfold Json.parse_array.
  pose proof (skip_whitespace_length s) as Hws.
  pose proof (parse_array_items_consuming (S (length s))
                (Json.skip_whitespace s) ltac:(lia)) as Hitems.
  assert (match
      '(vals, rest) ← Json.parse_array_items scan (S (length s))
                        (Json.skip_whitespace s);
      Returned (JArray vals, rest)
    with
    | Returned (_, rest) => length rest ≤ length s
    | Raised e => e ≠ MemoryError
    end) as Hloop.
  { destruct (Json.parse_array_items _ _ _) as [[vals rest]|e];
      simpl in *; [lia|done]. }
  destruct (Json.skip_whitespace s) as [|c s1] eqn:Hs; [done|].
  destruct (c =? 93)%N; [simpl in *; lia|done].
Qed.

Lemma parse_object_items_consuming (fuel : nat) (s : str) :
  length s < fuel →
  match Json.parse_object_items scan fuel s with
  | Returned (_, rest) => length rest < length s
  | Raised e => e ≠ MemoryError
  end.
Proof.
  revert s. induction fuel as [|fuel IH]; intros s Hfuel; [lia|].
  simpl. destruct s as [|q s1]; [done|].
  destruct (q =? 34)%N; [|done].
  pose proof (scanstring_consuming s1) as Hkey.
  destruct (Json.scanstring s1) as [[key s2]|e]; [|done].
  cbn [mbind outcome_bind].
  pose proof (skip_whitespace_length s2) as Hws2.
  destruct (Json.skip_whitespace s2) as [|colon s3]; [done|].
  destruct (colon =? 58)%N; [|done].
  pose proof (skip_whitespace_length s3) as Hws3.
  pose proof (Hscan (Json.skip_whitespace s3)) as Hval.
  destruct (scan _) as [[val s4]|e]; [|done]. cbn [mbind outcome_bind].
  pose proof (skip_whitespace_length s4) as Hws4.
  destruct (Json.skip_whitespace s4) as [|c s5]; [done|].
  destruct (c =? 125)%N; [simpl in *; lia|].
  destruct (c =? 44)%N; [|done].
  pose proof (skip_whitespace_length s5) as Hws5.
  specialize (IH (Json.skip_whitespace s5) ltac:(simpl in *; lia)).
  destruct (Json.parse_object_items _ _ _) as [[pairs rest]|e];
    simpl in *; [lia|done].
Qed.

Lemma parse_object_consuming (s : str) :
  match Json.parse_object scan s with
  | Returned (_, rest) => length rest ≤ length s
  | Raised e => e ≠ MemoryError
  end.
Proof.
  unfold Json.parse_object.
  pose proof (skip_whitespace_length s) as Hws.
  pose proof (parse_object_items_consuming (S (length s))
                (Json.skip_whitespace s) ltac:(lia)) as Hitems.
  assert (match
      '(pairs, rest) ← Json.parse_object_items scan (S (length s))
                         (Json.skip_whitespace s);
      Returned (JObject pairs, rest)
    with
    | Returned (_, rest) => length rest ≤ length s
    | Raised e => e ≠ MemoryError
    end) as Hloop.
  { destruct (Json.parse_object_items _ _ _) as [[pairs rest]|e];
      simpl in *; [lia|done]. }
  destruct (Json.skip_whitespace s) as [|c s1] eqn:Hs; [done|].
  destruct (c =? 125)%N; [simpl in *; lia|done].
Qed.

End loops.

Lemma startswith_drop (s prefix : str) :
  startswith s prefix = true → prefix ≠ [] →
  length (drop (length prefix) s) < length s.
Proof.
  intros [text ->]%startswith_true_iff Hprefix.
  rewrite length_drop, length_app. destruct prefix; [done|]. simpl. lia.
Qed.

Lemma scan_constant_consuming lim : consuming (Json.scan_constant lim).
Proof.
  intros s. unfold Json.scan_constant.
  repeat match goal with
         | |- context [startswith s ?p] =>
             let H := fresh in
             destruct (startswith s p) eqn:H;
             [exact (startswith_drop s p H ltac:(done))|]
         end.
  apply match_number_consuming.
Qed.

Lemma scan_once_consuming lim (depth : nat) :
  consuming (Json.scan_once lim depth).
Proof.
  induction depth as [|depth IH]; intros s.
  all: destruct s as [|c s1]; [done|]; cbn [Json.scan_once].
  all: destruct (c =? 34)%N;
    [pose proof (scanstring_consuming s1);
     destruct (Json.scanstring s1) as [[lexeme rest]|e]; simpl in *;
     [lia|done]|].
  all: destruct (c =? 123)%N;
    [first [done | pose proof (parse_object_consuming IH s1);
                   destruct (Json.parse_object _ _) as [[v rest]|e];
                   simpl in *; [lia|done]]|].
  all: destruct (c =? 91)%N;
    [first [done | pose proof (parse_array_consuming IH s1);
                   destruct (Json.parse_array _ _) as [[v rest]|e];
                   simpl in *; [lia|done]]|].
  all: apply (scan_constant_consuming lim (c :: s1)).
Qed.

(** The loops of the decoder never run out of fuel: [json.loads] does not
    raise the [MemoryError] that stands for it. *)
Lemma loads_fuel_suffices lim (s : str) : Json.loads lim s ≠ Raised MemoryError.
Proof.
  unfold Json.loads. destruct (startswith s _); [done|].
  unfold Json.decode, Json.raw_decode.
  pose proof (scan_once_consuming lim (Json.recursion_limit lim)
                (Json.skip_whitespace s)) as H.
  destruct (Json.scan_once _ _ _) as [[obj rest]|e]; cbn [mbind outcome_bind].
  - by destruct (Json.skip_whitespace rest).
  - by destruct e.
Qed.

(* ===================================================================== *)
(** * The scenarios of the specification, and instances of the theorems *)
(* ===================================================================== *)

Example classify_ping :
  filter_logs py_json_loads ping_request = Returned true.
Proof. reflexivity. Qed.

Example classify_log_line :
  filter_logs py_json_loads (u "info: server started") = Returned false.
Proof. reflexivity. Qed.

Example classify_free_text :
  filter_logs py_json_loads (u "unexpected free text") = Returned true.
Proof. reflexivity. Qed.

(** A severity prefix in capitals, or after a space, is not recognised. *)
Example classify_other_prefix :
  filter_logs py_json_loads (u "INFO: server started") = Returned true
  ∧ filter_logs py_json_loads (u " info: server started") = Returned true.
Proof. split; reflexivity. Qed.

(** The output of the child goes through the filter line by line. *)
Example forward_child_output :
  forward_stream py_json_loads Utf8.decode_ignore
    child_output empty_ostream true =
  Returned {| delivered := b "{}" ++ [x0a] ++ b "unexpected free text" ++ [x0a];
              buffered := [] |}.
Proof. vm_compute. reflexivity. Qed.

(** The classifier sees the decoded text: a log line after a byte that is not
    UTF-8 is dropped, though its bytes do not start with the prefix. *)
Example forward_undecodable_byte :
  Utf8.decode_ignore (xff :: b "info: x") = u "info: x"
  ∧ forward_stream py_json_loads Utf8.decode_ignore
      (xff :: b "info: x" ++ [x0a] ++ xff :: b "[1]" ++ [x0a])
      empty_ostream true =
    Returned {| delivered := xff :: b "[1]" ++ [x0a]; buffered := [] |}.
Proof. split; vm_compute; reflexivity. Qed.

Example exit_code_3 : exit_status (run_script (example_world (Returned (Exited 3)))) = 3%Z.
Proof. reflexivity. Qed.

(** A child killed by a signal has a negative [returncode]; the script then
    exits with its low eight bits as status. *)
Example exit_after_sigkill :
  exit_status (run_script (example_world (Returned (Signaled 9)))) = 247%Z.
Proof. reflexivity. Qed.

Lemma filter_logs_json_witness :
  py_json_loads ping_request = Returned ping_value
  ∧ filter_logs py_json_loads ping_request = Returned true.
Proof.
  split; [vm_compute; reflexivity|].
  apply (filter_logs_json py_json_loads ping_request ping_value).
  vm_compute; reflexivity.
Defined.

Lemma filter_logs_severity_prefix_witness :
  u "info:" ∈ log_prefixes
  ∧ py_json_loads (u "info:" ++ u " server started") = Raised JSONDecodeError
  ∧ filter_logs py_json_loads (u "info:" ++ u " server started")
    = Returned false.
Proof.
  assert (u "info:" ∈ log_prefixes) as Hin by (vm_compute; left).
  split; [exact Hin|]. split; [vm_compute; reflexivity|].
  apply (filter_logs_severity_prefix py_json_loads (u "info:")
           (u " server started") JSONDecodeError Hin).
  vm_compute; reflexivity.
Defined.

Lemma filter_logs_other_text_witness :
  py_json_loads (u "unexpected free text") = Raised JSONDecodeError
  ∧ strip (u "unexpected free text") ≠ []
  ∧ (∀ prefix, prefix ∈ log_prefixes →
       startswith (u "unexpected free text") prefix = false)
  ∧ filter_logs py_json_loads (u "unexpected free text") = Returned true.
Proof.
  assert (∀ prefix, prefix ∈ log_prefixes →
            startswith (u "unexpected free text") prefix = false) as Hprefix.
  { intros prefix Hin.
    repeat (apply elem_of_cons in Hin as [->|Hin]; [reflexivity|]).
    by apply elem_of_nil in Hin. }
  split; [vm_compute; reflexivity|]. split; [vm_compute; discriminate|].
  split; [exact Hprefix|].
  apply (filter_logs_other_text py_json_loads (u "unexpected free text")
           JSONDecodeError); [vm_compute; reflexivity| |exact Hprefix].
  vm_compute; discriminate.
Defined.

Lemma filter_logs_blank_witness :
  forallb isspace [32; 9; 160; 8195; 10]%N = true
  ∧ filter_logs py_json_loads [32; 9; 160; 8195; 10]%N = Returned false.
Proof.
  split; [reflexivity|].
  apply (filter_logs_blank Json.default_limits [32; 9; 160; 8195; 10]%N).
  reflexivity.
Defined.

Lemma forward_stream_identity_witness :
  buffered empty_ostream = []
  ∧ forward_stream py_json_loads Utf8.decode_ignore
      child_output empty_ostream false
    = Returned {| delivered := delivered empty_ostream ++ child_output;
                  buffered := [] |}.
Proof.
  split; [reflexivity|].
  apply (forward_stream_identity py_json_loads Utf8.decode_ignore
           child_output empty_ostream).
  reflexivity.
Defined.

Lemma forward_stream_whole_lines_witness :
  buffered empty_ostream = []
  ∧ ∃ kept : list bytes,
      forward_stream py_json_loads Utf8.decode_ignore
        child_output empty_ostream true
      = Returned {| delivered := delivered empty_ostream ++ concat kept;
                    buffered := [] |}
      ∧ kept `sublist_of` iter_readline child_output
      ∧ concat (iter_readline child_output) = child_output.
Proof.
  split; [reflexivity|].
  apply (forward_stream_whole_lines py_json_loads Utf8.decode_ignore
           child_output empty_ostream true).
  reflexivity.
Defined.

Lemma exit_status_lost_witness :
  launch (idle_caller (Returned (Exited 3)))
         (popen_request (idle_caller (Returned (Exited 3))))
    = Returned (Exited 3)
  ∧ thread_at_exit (idle_caller (Returned (Exited 3))) stdin_thread
    = InReadline
  ∧ ProcessWait ∈ (main (idle_caller (Returned (Exited 3)))).1
  ∧ ending (run_script (idle_caller (Returned (Exited 3)))) = Signaled 6
  ∧ fatal_error (run_script (idle_caller (Returned (Exited 3)))) = true
  ∧ ending (run_script (idle_caller (Returned (Exited 3)))) ≠ Exited 3.
Proof.
  split; [reflexivity|]. split; [reflexivity|].
  apply (exit_status_lost (idle_caller (Returned (Exited 3))) 3);
    reflexivity.
Defined.


Lemma spawn_failure_traceback_witness :
  launch missing_executable (popen_request missing_executable)
    = Raised FileNotFoundError
  ∧ FileNotFoundError ∈ [FileNotFoundError; PermissionError; OSError]
  ∧ (main missing_executable).1 = [Popen (popen_request missing_executable)]
  ∧ exit_status (run_script missing_executable) = 1%Z
  ∧ tracebacks (run_script missing_executable) = [FileNotFoundError].
Proof.
  split; [reflexivity|]. split; [left|].
  apply (spawn_failure_traceback missing_executable FileNotFoundError);
    [reflexivity|left].
Defined.

(** C9, as the specification has it, fails: when the executable is missing
    the exit status is not zero and [Popen] is called once, but a traceback
    is printed. *)
Lemma spawn_failure_not_silent :
  launch missing_executable (popen_request missing_executable)
    = Raised FileNotFoundError
  ∧ ¬ (exit_status (run_script missing_executable) ≠ 0%Z
       ∧ popen_calls (main missing_executable).1
         = [popen_request missing_executable]
       ∧ tracebacks (run_script missing_executable) = []).
Proof.
  split; [reflexivity|]. intros (_ & _ & Hsilent). discriminate Hsilent.
Qed.

(* ===================================================================== *)
(** * Further properties of the line classifier *)
(* ===================================================================== *)

Lemma truthy_false_iff {A} (l : list A) : truthy l = false ↔ l = [].
Proof. by destruct l. Qed.

(** The branch under [except] says [False] for a blank line and for a line
    that starts with a severity prefix, and for no other. *)
Lemma except_verdict_false_iff (line : str) :
  except_verdict line = false ↔
  forallb isspace line = true
  ∨ ∃ prefix text, prefix ∈ log_prefixes ∧ line = prefix ++ text.
Proof.
  unfold except_verdict.
  rewrite andb_false_iff, negb_false_iff, truthy_false_iff, strip_nil_iff.
  rewrite any_true_iff. setoid_rewrite startswith_true_iff.
  split.
  - intros [H|(prefix & Hin & text & ->)]; [by left|right; eauto].
  - intros [H|(prefix & text & Hin & ->)]; [by left|right; eauto].
Qed.

(** X1.  [filter_logs] drops a line exactly when [json.loads] raises on it
    and it is blank or starts with one of the six severity prefixes. *)
Theorem filter_logs_false_iff
    (json_loads : str → outcome json) (line : str) :
  filter_logs json_loads line = Returned false ↔
  (∃ e, json_loads line = Raised e)
  ∧ (forallb isspace line = true
     ∨ ∃ prefix text, prefix ∈ log_prefixes ∧ line = prefix ++ text).
Proof.
  rewrite <-except_verdict_false_iff.
  destruct (json_loads line) as [value|e] eqn:Hjson.
  - unfold filter_logs. rewrite Hjson. cbn. split; [done|].
    by intros [[e He] _].
  - rewrite (filter_logs_raised _ _ _ Hjson). split.
    + intros [= ->]. eauto.
    + by intros [_ ->].
Qed.

(** No severity prefix starts with a whitespace character. *)
Lemma startswith_isspace (c : N) (rest prefix : str) :
  isspace c = true → prefix ∈ log_prefixes →
  startswith (c :: rest) prefix = false.
Proof.
  intros Hc Hin.
  repeat (apply elem_of_cons in Hin as [->|Hin];
          [cbn [startswith u map String.list_ascii_of_string];
           match goal with
           | |- ((c =? ?k)%N && _) = false =>
               destruct (N.eqb_spec c k) as [->|]; [discriminate Hc|done]
           end|]).
  by apply elem_of_nil in Hin.
Qed.

(** X2.  The prefixes are looked for at the first character only: a line
    that [json.loads] rejects, that begins with whitespace and holds
    something else, is forwarded, whatever follows the whitespace. *)
Theorem filter_logs_indented
    (json_loads : str → outcome json) (c : N) (rest : str) (e : exn) :
  isspace c = true →
  strip (c :: rest) ≠ [] →
  json_loads (c :: rest) = Raised e →
  filter_logs json_loads (c :: rest) = Returned true.
Proof.
  intros Hc Hstrip Hjson. rewrite (filter_logs_raised _ _ _ Hjson).
  unfold except_verdict. rewrite (truthy_true _ Hstrip).
  assert (any (λ p, startswith (c :: rest) p) log_prefixes = false) as ->.
  { apply any_false_iff. intros p Hp. by apply startswith_isspace. }
  done.
Qed.

(** With CPython's decoder, what [filter_logs] returns is what the branch
    under [except] computes: no text that is blank or starts with a severity
    prefix is JSON. *)
Lemma filter_logs_cpython lim (line : str) :
  filter_logs (Json.loads lim) line = Returned (except_verdict line).
Proof.
  destruct (Json.loads lim line) as [value|e] eqn:Hjson.
  - unfold filter_logs. rewrite Hjson. cbn. f_equal. symmetry.
    apply not_false_iff_true. intros Hv.
    apply except_verdict_false_iff in Hv as [Hblank|(p & text & Hp & ->)].
    + by rewrite (loads_blank lim _ Hblank) in Hjson.
    + by rewrite (loads_severity_prefix lim _ _ Hp) in Hjson.
  - by apply (filter_logs_raised _ _ e).
Qed.

(** X4.  With CPython's decoder the attempt to parse decides nothing:
    [filter_logs] forwards a line exactly when it is not blank and starts
    with none of the severity prefixes, whether it is JSON or not. *)
Theorem filter_logs_true_iff lim (line : str) :
  filter_logs (Json.loads lim) line = Returned true ↔
  forallb isspace line = false
  ∧ any (λ prefix, startswith line prefix) log_prefixes = false.
Proof.
  rewrite filter_logs_cpython. unfold except_verdict.
  assert (truthy (strip line) = negb (forallb isspace line)) as ->.
  { destruct (forallb isspace line) eqn:Hblank.
    - by rewrite truthy_strip_blank.
    - apply truthy_true. intros Hs%strip_nil_iff. congruence. }
  destruct (forallb isspace line), (any _ log_prefixes); cbn;
    intuition congruence.
Qed.

Lemma forallb_isspace_app (line ws : str) :
  forallb isspace ws = true →
  forallb isspace (line ++ ws) = forallb isspace line.
Proof. intros H. by rewrite forallb_app, H, andb_true_r. Qed.

Lemma startswith_app_isspace (prefix line ws : str) :
  forallb isspace ws = true →
  forallb (λ c, negb (isspace c)) prefix = true →
  startswith (line ++ ws) prefix = startswith line prefix.
Proof.
  intros Hws. revert line.
  induction prefix as [|p prefix IH]; intros line Hp; [done|].
  simpl in Hp. apply andb_true_iff in Hp as [Hp Hprefix].
  destruct line as [|c line]; simpl; [|by rewrite IH].
  destruct ws as [|w ws]; [done|]. simpl in *.
  apply andb_true_iff in Hws as [Hw _].
  destruct (N.eqb_spec w p) as [->|]; [|done].
  by rewrite Hw in Hp.
Qed.

Lemma any_ext_in {A} (f g : A → bool) (l : list A) :
  (∀ x, x ∈ l → f x = g x) → any f l = any g l.
Proof.
  unfold any. induction l as [|x l IH]; intros H; [done|]. simpl.
  rewrite (H x) by left. rewrite IH; [done|].
  intros y Hy. apply H. by right.
Qed.

(** Whitespace after a line does not change what the branch under [except]
    says of it. *)
Lemma except_verdict_app_isspace (line ws : str) :
  forallb isspace ws = true →
  except_verdict (line ++ ws) = except_verdict line.
Proof.
  intros Hws. unfold except_verdict. f_equal.
  - apply eq_true_iff_eq. rewrite <-!not_false_iff_true, !truthy_false_iff.
    by rewrite !strip_nil_iff, forallb_isspace_app.
  - f_equal. apply any_ext_in. intros p Hp.
    apply startswith_app_isspace; [done|].
    repeat (apply elem_of_cons in Hp as [->|Hp]; [reflexivity|]).
    by apply elem_of_nil in Hp.
Qed.

(** X5.  With CPython's decoder the verdict on a line does not depend on
    the whitespace that ends it: the newline, or the carriage return and
    newline, that [readline] leaves at its end changes nothing. *)
Theorem filter_logs_trailing_whitespace lim (line ws : str) :
  forallb isspace ws = true →
  filter_logs (Json.loads lim) (line ++ ws)
  = filter_logs (Json.loads lim) line.
Proof.
  intros Hws.
  by rewrite !filter_logs_cpython, except_verdict_app_isspace.
Qed.

(* ===================================================================== *)
(** * The calls the forwarder makes on its output stream *)
(* ===================================================================== *)

Section forwarder_on_properties.
Context {S : Type}.
Variable stream_write : S → bytes → S.
Variable stream_flush : S → S.
Variable json_loads : str → outcome json.
Variable decode : bytes → str.

Lemma forward_line_on_spec (should_filter : bool) (out : S) (line : bytes) :
  line ≠ [] →
  forward_line_on stream_write stream_flush json_loads decode
    should_filter out line =
    Returned (Continue,
              if forwarded json_loads decode should_filter line
              then stream_flush (stream_write out line) else out).
Proof.
  intros Hline. unfold forward_line_on, forwarded.
  rewrite (truthy_true _ Hline). simpl negb. cbv iota.
  destruct should_filter; [|done]. simpl negb. rewrite orb_false_l.
  destruct (filter_logs_total json_loads (decode line)) as [keep ->].
  by destruct keep.
Qed.

Lemma for_each_forward_line_on (should_filter : bool) (lines : list bytes) :
  Forall (λ line, line ≠ []) lines →
  ∀ out,
    for_each (forward_line_on stream_write stream_flush json_loads decode
                should_filter) out lines =
    Returned (foldl (λ st line, stream_flush (stream_write st line)) out
                (List.filter (forwarded json_loads decode should_filter)
                             lines)).
Proof.
  induction 1 as [|line lines Hline _ IH]; intros out; [done|].
  simpl for_each. rewrite (forward_line_on_spec _ _ _ Hline).
  cbn [mbind outcome_bind]. simpl List.filter.
  destruct (forwarded json_loads decode should_filter line); by rewrite IH.
Qed.

Lemma forward_stream_on_fold (input : istream) (out : S)
    (should_filter : bool) :
  forward_stream_on stream_write stream_flush json_loads decode
    input out should_filter =
  Returned (foldl (λ st line, stream_flush (stream_write st line)) out
              (kept_lines json_loads decode should_filter input)).
Proof.
  unfold forward_stream_on, kept_lines.
  apply for_each_forward_line_on, iter_readline_nonempty.
Qed.

End forwarder_on_properties.

(** X6.  Whatever the output stream is, [forward_stream] does to it, for
    each line it keeps and in the order read, one [write] of the whole line
    followed at once by one [flush], and nothing else. *)
Theorem forward_stream_write_flush {S : Type}
    (stream_write : S → bytes → S) (stream_flush : S → S)
    (json_loads : str → outcome json) (decode : bytes → str)
    (input : istream) (out : S) (should_filter : bool) :
  forward_stream_on stream_write stream_flush json_loads decode
    input out should_filter =
  Returned (foldl (λ st line, stream_flush (stream_write st line)) out
              (kept_lines json_loads decode should_filter input))
  ∧ forward_stream json_loads decode =
    forward_stream_on write flush json_loads decode.
Proof. split; [apply forward_stream_on_fold|reflexivity]. Qed.

Lemma foldl_flush_write (o : ostream) (lines : list bytes) :
  foldl (λ st line, flush (write st line)) o lines =
  match lines with
  | [] => o
  | _ :: _ => {| delivered := delivered o ++ buffered o ++ concat lines;
                 buffered := [] |}
  end.
Proof.
  revert o. induction lines as [|line lines IH]; intros o; [done|].
  cbn [foldl]. rewrite IH. destruct lines as [|line' lines].
  - unfold flush, write. simpl. by rewrite app_nil_r.
  - unfold flush, write. simpl. by rewrite <-!app_assoc.
Qed.

Lemma forward_stream_fold
    (json_loads : str → outcome json) (decode : bytes → str)
    (input : istream) (o : ostream) (should_filter : bool) :
  forward_stream json_loads decode input o should_filter =
  Returned (foldl (λ st line, flush (write st line)) o
              (kept_lines json_loads decode should_filter input)).
Proof. apply (forward_stream_on_fold write flush). Qed.

(** X7.  Bytes that sit in the buffer of the destination when
    [forward_stream] is called are not lost: they are delivered ahead of the
    first line written, and stay buffered, the stream untouched, when no line
    is written.  After a written line nothing is left in the buffer. *)
Theorem forward_stream_buffered
    (json_loads : str → outcome json) (decode : bytes → str)
    (input : istream) (o : ostream) (should_filter : bool) :
  forward_stream json_loads decode input o should_filter =
  Returned
    match kept_lines json_loads decode should_filter input with
    | [] => o
    | kept =>
        {| delivered := delivered o ++ buffered o ++ concat kept;
           buffered := [] |}
    end.
Proof.
  rewrite forward_stream_fold, foldl_flush_write.
  by destruct (kept_lines _ _ _ _).
Qed.

(* ===================================================================== *)
(** * The framing of lines *)
(* ===================================================================== *)

Lemma readline_cons_other (c : byte) (s : istream) :
  Byte.eqb c x0a = false →
  readline (c :: s) = (c :: (readline s).1, (readline s).2).
Proof. intros H. simpl. rewrite H. by destruct (readline s). Qed.

Lemma eqb_newline_false (c : byte) : Byte.eqb c x0a = false → x0a ≠ c.
Proof. intros H <-. by vm_compute in H. Qed.

(** A read ends at the first newline, or takes all that is left. *)
Lemma readline_cases (c : byte) (s : istream) :
  terminated (readline (c :: s)).1
  ∨ unterminated (readline (c :: s)).1 ∧ (readline (c :: s)).2 = [].
Proof.
  revert c. induction s as [|c' s IH]; intros c.
  all: destruct (Byte.eqb c x0a) eqn:Hc;
    [left; apply byte_dec_bl in Hc as ->;
     split; [done|apply not_elem_of_nil]|].
  all: rewrite (readline_cons_other _ _ Hc); apply eqb_newline_false in Hc.
  - right. split; [|done]. split; [done|].
    by intros Hin%list_elem_of_singleton.
  - pose proof (readline_cons_nonempty c' s) as Hnonempty.
    destruct (IH c') as [[Hlast Hbody]|[[_ Hbody] Hrest]];
      destruct (readline (c' :: s)) as [[|b0 line] rest]; try done.
    + left. split; [done|]. cbn [fst removelast].
      apply not_elem_of_cons. by split.
    + right. split; [|done]. split; [done|].
      apply not_elem_of_cons. by split.
Qed.

Lemma iter_readline_is_framed (s : istream) : framed (iter_readline s).
Proof.
  induction s as [|c s IH] using istream_line_ind; [constructor|].
  rewrite iter_readline_cons.
  destruct (readline_cases c s) as [Hline|[Hline Hrest]].
  - by constructor 3.
  - rewrite Hrest, iter_readline_nil. by constructor 2.
Qed.

Lemma readline_unterminated (line : bytes) :
  x0a ∉ line → readline line = (line, []).
Proof.
  induction line as [|c line IH]; [done|].
  intros [Hc Hline]%not_elem_of_cons. simpl.
  destruct (Byte.eqb c x0a) eqn:Heq.
  - by apply byte_dec_bl in Heq.
  - by rewrite IH.
Qed.

Lemma readline_terminated (line : bytes) (rest : istream) :
  terminated line → readline (line ++ rest) = (line, rest).
Proof.
  intros [Hlast Hbody]. induction line as [|c line IH]; [done|].
  destruct line as [|c' line].
  - injection Hlast as ->. done.
  - cbn [removelast] in Hbody. apply not_elem_of_cons in Hbody as [Hc Hbody].
    change ((c :: c' :: line) ++ rest) with (c :: (c' :: line) ++ rest).
    cbn [readline]. destruct (Byte.eqb c x0a) eqn:Heq.
    + by apply byte_dec_bl in Heq.
    + by rewrite IH.
Qed.

Lemma terminated_nonempty (line : bytes) : terminated line → line ≠ [].
Proof. by intros [Hlast _] ->. Qed.

Lemma iter_readline_terminated (line : bytes) (rest : istream) :
  terminated line →
  iter_readline (line ++ rest) = line :: iter_readline rest.
Proof.
  intros Hline.
  apply iter_readline_step;
    [by apply readline_terminated|by apply terminated_nonempty].
Qed.

(** Lines that are framed, put end to end and read again, come back. *)
Lemma iter_readline_concat (lines : list bytes) :
  framed lines → iter_readline (concat lines) = lines.
Proof.
  induction 1 as [|line [Hne Hbody]|line lines Hline _ IH].
  - done.
  - simpl. rewrite app_nil_r.
    by rewrite (iter_readline_step line line []);
      [|apply readline_unterminated|].
  - cbn [concat]. by rewrite iter_readline_terminated, IH.
Qed.

Lemma framed_filter (f : bytes → bool) (lines : list bytes) :
  framed lines → framed (List.filter f lines).
Proof.
  induction 1 as [|line Hline|line lines Hline _ IH]; simpl.
  - constructor.
  - destruct (f line); by constructor.
  - destruct (f line); [by constructor 3|done].
Qed.

(** X8.  Every line [forward_stream] classifies and writes is a line of
    the stream as it stands: it is not empty, it holds no newline before
    its last byte, and every line but the last one read ends with a
    newline. *)
Theorem iter_readline_framing (s : istream) :
  Forall (λ line, line ≠ [] ∧ x0a ∉ removelast line) (iter_readline s)
  ∧ Forall (λ line, last line = Some x0a) (removelast (iter_readline s)).
Proof.
  pose proof (iter_readline_is_framed s) as H.
  induction H as [|line [Hne Hbody]|line lines [Hlast Hbody] _ [IH1 IH2]].
  - by split.
  - split; [|constructor]. constructor; [|done]. split; [done|].
    intros Hin. apply Hbody. clear -Hin.
    induction line as [|c [|c' line] IH];
      [by apply elem_of_nil in Hin|by apply elem_of_nil in Hin|].
    cbn [removelast] in Hin. apply elem_of_cons in Hin as [->|Hin];
      [left|right; by apply IH].
  - split.
    + constructor; [|done]. split; [by intros ->|done].
    + destruct lines as [|line' lines]; [constructor|].
      cbn [removelast]. by constructor.
Qed.

(** X9.  Splitting into lines undoes joining, on framed lines and on no
    others: lines put end to end and read by [readline] until [b''] are read
    back one for one exactly when they are framed. *)
Theorem readline_round_trip (lines : list bytes) :
  framed lines ↔ iter_readline (concat lines) = lines.
Proof.
  split; [apply iter_readline_concat|].
  intros <-. apply iter_readline_is_framed.
Qed.

(* ===================================================================== *)
(** * How the forwarder composes *)
(* ===================================================================== *)

Lemma last_app_nonempty {A} (l1 l2 : list A) :
  l2 ≠ [] → last (l1 ++ l2) = last l2.
Proof.
  intros H. destruct l2 as [|x l2] using rev_ind; [done|].
  by rewrite app_assoc, !last_snoc.
Qed.

Lemma last_elem_of {A} (l : list A) (x : A) : last l = Some x → x ∈ l.
Proof.
  induction l as [|y [|z l] IH]; [done| |].
  - intros [= ->]. left.
  - intros H. right. by apply IH.
Qed.

(** The lines of a stream cut at a line boundary, followed by another
    stream, are the lines of the one and then the lines of the other. *)
Lemma iter_readline_app (s1 s2 : istream) :
  line_aligned s1 →
  iter_readline (s1 ++ s2) = iter_readline s1 ++ iter_readline s2.
Proof.
  induction s1 as [|c s1 IH] using istream_line_ind; [done|].
  intros [|Hlast]; [done|].
  pose proof (readline_app (c :: s1)) as Happ.
  rewrite iter_readline_cons.
  destruct (readline_cases c s1) as [Hline|[[_ Hline] Hrest]].
  - destruct (readline (c :: s1)) as [line rest]. cbn [fst snd] in *.
    rewrite <-Happ, <-app_assoc, iter_readline_terminated by done.
    rewrite IH; [done|].
    destruct rest as [|c' rest]; [by left|right].
    by rewrite <-Happ, last_app_nonempty in Hlast.
  - destruct (readline (c :: s1)) as [line rest]. cbn [fst snd] in *.
    subst rest. rewrite app_nil_r in Happ. subst line.
    by apply last_elem_of in Hlast.
Qed.

Section forwarder_composition.
Variable json_loads : str → outcome json.
Variable decode : bytes → str.

Lemma kept_lines_app (should_filter : bool) (s1 s2 : istream) :
  line_aligned s1 →
  kept_lines json_loads decode should_filter (s1 ++ s2) =
  kept_lines json_loads decode should_filter s1
  ++ kept_lines json_loads decode should_filter s2.
Proof.
  intros H. unfold kept_lines. by rewrite iter_readline_app, List.filter_app.
Qed.

(** X10.  Forwarding is incremental: when a stream is cut at a line
    boundary, forwarding the whole is forwarding the first part and then,
    on the stream so obtained, the second.  What has been written for the
    first part does not change when more input comes. *)
Theorem forward_stream_app
    (s1 s2 : istream) (o : ostream) (should_filter : bool) :
  line_aligned s1 →
  forward_stream json_loads decode (s1 ++ s2) o should_filter =
  (o' ← forward_stream json_loads decode s1 o should_filter;
   forward_stream json_loads decode s2 o' should_filter).
Proof.
  intros H. rewrite !forward_stream_fold. cbn [mbind outcome_bind].
  rewrite forward_stream_fold. by rewrite kept_lines_app, foldl_app.
Qed.

Lemma filter_filter {A} (f : A → bool) (l : list A) :
  List.filter f (List.filter f l) = List.filter f l.
Proof.
  induction l as [|x l IH]; [done|]. simpl.
  destruct (f x) eqn:Hx; [|done]. simpl. by rewrite Hx, IH.
Qed.

(** X11.  Filtering is idempotent: what the filtering forwarder delivered,
    given to it again, is delivered whole. *)
Theorem forward_stream_idempotent (input : istream) :
  (o ← forward_stream json_loads decode input empty_ostream true;
   forward_stream json_loads decode (delivered o) empty_ostream true)
  = forward_stream json_loads decode input empty_ostream true.
Proof.
  rewrite (forward_stream_spec _ _ input) by done.
  cbn [mbind outcome_bind delivered empty_ostream app].
  rewrite forward_stream_spec by done. do 2 f_equal.
  cbn [delivered empty_ostream app].
  rewrite iter_readline_concat
    by apply framed_filter, iter_readline_is_framed.
  by rewrite filter_filter.
Qed.

(** X12.  A dropped line leaves no trace: a newline-terminated line that
    the classifier rejects, put at a line boundary of the input, changes
    nothing in what the filtering forwarder does. *)
Theorem forward_stream_dropped_line
    (s1 line s2 : istream) (o : ostream) :
  line_aligned s1 →
  terminated line →
  filter_logs json_loads (decode line) = Returned false →
  forward_stream json_loads decode (s1 ++ line ++ s2) o true
  = forward_stream json_loads decode (s1 ++ s2) o true.
Proof.
  intros Hs1 Hline Hdrop. rewrite !forward_stream_fold. do 2 f_equal.
  rewrite !(kept_lines_app _ s1) by done. f_equal.
  unfold kept_lines. rewrite iter_readline_terminated by done.
  cbn [List.filter].
  assert (forwarded json_loads decode true line = false) as ->; [|done].
  unfold forwarded. by rewrite Hdrop.
Qed.

(** X13.  The filter is transparent for a child that prints nothing but
    JSON: when [json.loads] parses every line, the destination receives the
    very bytes of the source. *)
Theorem forward_stream_all_json (input : istream) (o : ostream) :
  buffered o = [] →
  (∀ line, line ∈ iter_readline input →
     ∃ value, json_loads (decode line) = Returned value) →
  forward_stream json_loads decode input o true =
    Returned {| delivered := delivered o ++ input; buffered := [] |}.
Proof.
  intros Ho Hjson. rewrite forward_stream_spec by done.
  assert (List.filter (forwarded json_loads decode true) (iter_readline input)
          = iter_readline input) as ->.
  { induction (iter_readline input) as [|line lines IH]; [done|].
    simpl. destruct (Hjson line) as [value Hvalue]; [left|].
    unfold forwarded at 1, filter_logs. rewrite Hvalue. cbn.
    rewrite IH; [done|]. intros l Hl. apply Hjson. by right. }
  by rewrite concat_iter_readline.
Qed.

End forwarder_composition.

(* ===================================================================== *)
(** * The exit status of the script *)
(* ===================================================================== *)


(* ===================================================================== *)
(** * Instances of the further properties *)
(* ===================================================================== *)

Lemma filter_logs_indented_witness :
  isspace 32 = true
  ∧ strip (32%N :: u "     Request starting HTTP/1.1 GET") ≠ []
  ∧ py_json_loads (32%N :: u "     Request starting HTTP/1.1 GET")
    = Raised JSONDecodeError
  ∧ filter_logs py_json_loads (32%N :: u "     Request starting HTTP/1.1 GET")
    = Returned true.
Proof.
  split; [reflexivity|]. split; [vm_compute; discriminate|].
  split; [vm_compute; reflexivity|].
  apply (filter_logs_indented py_json_loads 32
           (u "     Request starting HTTP/1.1 GET") JSONDecodeError);
    [reflexivity|vm_compute; discriminate|vm_compute; reflexivity].
Defined.

Lemma severity_prefix_always_dropped_witness :
  u "warn:" ∈ log_prefixes
  ∧ filter_logs py_json_loads (u "warn:" ++ u " disk low") = Returned false.
Proof.
  assert (u "warn:" ∈ log_prefixes) as Hin by (vm_compute; right; left).
  split; [exact Hin|].
  exact (severity_prefix_always_dropped Json.default_limits
           (u "warn:") (u " disk low") Hin).
Defined.

Lemma filter_logs_trailing_whitespace_witness :
  forallb isspace [13; 10]%N = true
  ∧ filter_logs py_json_loads (u "info: started" ++ [13; 10]%N)
    = filter_logs py_json_loads (u "info: started").
Proof.
  split; [reflexivity|].
  apply (filter_logs_trailing_whitespace Json.default_limits
           (u "info: started") [13; 10]%N).
  reflexivity.
Defined.

Lemma forward_stream_app_witness :
  line_aligned log_line
  ∧ forward_stream py_json_loads Utf8.decode_ignore
      (log_line ++ json_output) empty_ostream true
    = (o' ← forward_stream py_json_loads Utf8.decode_ignore
              log_line empty_ostream true;
       forward_stream py_json_loads Utf8.decode_ignore json_output o' true).
Proof.
  assert (line_aligned log_line) as H by (right; reflexivity).
  split; [exact H|].
  exact (forward_stream_app py_json_loads Utf8.decode_ignore
           log_line json_output empty_ostream true H).
Defined.

Lemma forward_stream_dropped_line_witness :
  line_aligned (b "{}" ++ [x0a])
  ∧ terminated log_line
  ∧ filter_logs py_json_loads (Utf8.decode_ignore log_line) = Returned false
  ∧ forward_stream py_json_loads Utf8.decode_ignore
      ((b "{}" ++ [x0a]) ++ log_line ++ b "[1, 2]") empty_ostream true
    = forward_stream py_json_loads Utf8.decode_ignore
        ((b "{}" ++ [x0a]) ++ b "[1, 2]") empty_ostream true.
Proof.
  assert (line_aligned (b "{}" ++ [x0a])) as H1 by (right; reflexivity).
  assert (terminated log_line) as H2.
  { split; [reflexivity|]. vm_compute.
    intros H. repeat (apply elem_of_cons in H as [H|H]; [discriminate H|]).
    by apply elem_of_nil in H. }
  assert (filter_logs py_json_loads (Utf8.decode_ignore log_line)
          = Returned false) as H3 by (vm_compute; reflexivity).
  split; [exact H1|]. split; [exact H2|]. split; [exact H3|].
  exact (forward_stream_dropped_line py_json_loads Utf8.decode_ignore
           (b "{}" ++ [x0a]) log_line (b "[1, 2]") empty_ostream H1 H2 H3).
Defined.

Lemma forward_stream_all_json_witness :
  buffered empty_ostream = []
  ∧ (∀ line, line ∈ iter_readline json_output →
       ∃ value, py_json_loads (Utf8.decode_ignore line) = Returned value)
  ∧ forward_stream py_json_loads Utf8.decode_ignore
      json_output empty_ostream true
    = Returned {| delivered := delivered empty_ostream ++ json_output;
                  buffered := [] |}.
Proof.
  assert (∀ line, line ∈ iter_readline json_output →
            ∃ value, py_json_loads (Utf8.decode_ignore line) = Returned value)
    as Hjson.
  { assert (iter_readline json_output
            = [b "{}" ++ [x0a]; b "[1, 2]" ++ [x0a]]) as ->
      by (vm_compute; reflexivity).
    intros line Hin.
    apply elem_of_cons in Hin as [->|Hin];
      [exists (JObject []); vm_compute; reflexivity|].
    apply elem_of_cons in Hin as [->|Hin];
      [exists (JArray [JNumber (u "1") false; JNumber (u "2") false]);
       vm_compute; reflexivity|].
    by apply elem_of_nil in Hin. }
  split; [reflexivity|]. split; [exact Hjson|].
  exact (forward_stream_all_json py_json_loads Utf8.decode_ignore
           json_output empty_ostream eq_refl Hjson).
Defined.

